(** * kernel/freezer.c: the task freezer

    A shallow embedding of [kernel/freezer.c]: the freezing predicate
    ([freezing_slow_path]), the coordinator-side primitives ([freeze_task],
    [__thaw_task]) and the task-side code ([__refrigerator],
    [__set_freezable]).

    - Task flags are the [unsigned int flags] word of [struct task_struct],
      a [Z] handled with [Z.land], [Z.lor] and [Z.lnot].
    - The coordinator-side functions run entirely under [freezer_lock]; they
      are functions from the state before to the state after, together with
      the list of scheduler calls they made.
    - The task-side functions are a machine with one program point per
      statement, run against an environment that, between the statements of
      the task, rewrites the freezing conditions and may run [freeze_task]
      or [__thaw_task] on the task. *)

From Stdlib Require Import ZArith List Bool Lia.
Import ListNotations.
Local Open Scope Z_scope.

(** ** Task flags and task states *)

(** Modelled from the spec: the per-task flag bits of
    [include/linux/sched.h], which is not part of the sources at hand.  The
    spec names them [freezing], [no_freeze], [frozen] and [freezer_nosig];
    the values are those of the header. *)
Definition PF_FREEZING : Z := 0x00004000.
Definition PF_NOFREEZE : Z := 0x00008000.
Definition PF_FROZEN : Z := 0x00010000.
Definition PF_FREEZER_NOSIG : Z := 0x80000000.

(** Modelled from the spec: the scheduling states of
    [include/linux/sched.h] ("runnable", "interruptible wait", "blocked,
    non-interruptible", and the kill-only wake bit). *)
Definition TASK_RUNNING : Z := 0.
Definition TASK_INTERRUPTIBLE : Z := 1.
Definition TASK_UNINTERRUPTIBLE : Z := 2.
Definition TASK_WAKEKILL : Z := 128.

(** [struct task_struct], restricted to what the freezer reads and writes. *)
Record task_struct : Type := mk_task {
  pid : Z;
  flags : Z;               (* unsigned int flags *)
  state : Z;               (* volatile long state *)
  tif_sigpending : bool;   (* TIF_SIGPENDING, the pending-interrupt marker *)
  sig_pending : bool       (* some deliverable signal is really pending *)
}.

Definition set_flags (p : task_struct) (f : Z) : task_struct :=
  mk_task (pid p) f (state p) (tif_sigpending p) (sig_pending p).

Definition set_state (p : task_struct) (s : Z) : task_struct :=
  mk_task (pid p) (flags p) s (tif_sigpending p) (sig_pending p).

Definition set_tif_sigpending (p : task_struct) (b : bool) : task_struct :=
  mk_task (pid p) (flags p) (state p) b (sig_pending p).

(** [p->flags & PF_X] used as a condition. *)
Definition test_flag (f mask : Z) : bool := negb (Z.land f mask =? 0).

(** [p->flags |= PF_X] and [p->flags &= ~PF_X]. *)
Definition flag_set (f mask : Z) : Z := Z.lor f mask.
Definition flag_clear (f mask : Z) : Z := Z.land f (Z.lnot mask).

(** ** The freezing conditions *)

(** A call into this file that a freezer or a thawer makes on a task. *)
Inductive intervention : Type :=
| Freeze_task_call       (* freeze_task(p), lines 128-152 *)
| Thaw_task_call.        (* __thaw_task(p), lines 154-176 *)

(** What surrounds a task at one instant: the file-level variables
    [system_freezing_cnt], [pm_freezing] and [pm_nosig_freezing]; the two
    predicates the file takes from other subsystems, [cgroup_freezing(p)]
    and [kthread_should_stop()], indexed by the pid of the task they are
    asked about; and the calls, in order, that the coordinator makes on
    the task at that instant. *)
Record world : Type := mk_world {
  system_freezing_cnt : Z;
  pm_freezing : bool;
  pm_nosig_freezing : bool;
  cgroup_freezing : Z -> bool;
  kthread_should_stop : Z -> bool;
  coordinator : list intervention
}.

(** [freezing_slow_path], lines 34-46. *)
Definition freezing_slow_path (w : world) (p : task_struct) : bool :=
  if test_flag (flags p) PF_NOFREEZE then false
  else if pm_nosig_freezing w || cgroup_freezing w (pid p) then true
  else if pm_freezing w && negb (test_flag (flags p) PF_FREEZER_NOSIG) then true
  else false.

(** Modelled from the spec: [freezing(p)] of [include/linux/freezer.h], the
    predicate every caller in this file uses.  The comment of
    [freezing_slow_path] gives its shape: the slow path "is called by
    freezing() if system_freezing_cnt isn't zero". *)
Definition freezing (w : world) (p : task_struct) : bool :=
  if system_freezing_cnt w =? 0 then false else freezing_slow_path w p.

(** Modelled from the spec: [frozen(p)] of [include/linux/freezer.h], the
    test of the [frozen] flag. *)
Definition frozen (p : task_struct) : bool := test_flag (flags p) PF_FROZEN.

(** Modelled from the spec: [should_send_signal(p)] of
    [include/linux/freezer.h]; the target is notified through the
    signal-like channel when its [freezer_nosig] flag is clear. *)
Definition should_send_signal (p : task_struct) : bool :=
  negb (test_flag (flags p) PF_FREEZER_NOSIG).

(** The spec's data-model invariant of the registry: the counter is positive
    exactly when some freezing condition exists. *)
Definition registry_wf (w : world) : Prop :=
  0 <= system_freezing_cnt w /\
  (system_freezing_cnt w = 0 ->
   pm_freezing w = false /\ pm_nosig_freezing w = false /\
   forall i, cgroup_freezing w i = false).

(** ** Scheduler and signal primitives *)

(** The calls the freezer makes into the scheduler and the signal code. *)
Inductive call : Type :=
| Call_signal_wake_up (resume : Z)
| Call_wake_up_state (mask : Z)
| Call_wake_up_process
| Call_recalc_sigpending_and_wake.

(** Modelled from the spec: [wake_up_state(p, mask)], the raw wake: a task
    whose state is in [mask] becomes runnable. *)
Definition do_wake_up_state (p : task_struct) (mask : Z) : task_struct :=
  if Z.land (state p) mask =? 0 then p else set_state p TASK_RUNNING.

(** Modelled from the spec: [signal_wake_up(p, resume)], the wake that also
    sets the pending-interrupt marker. *)
Definition do_signal_wake_up (p : task_struct) (resume : Z) : task_struct :=
  do_wake_up_state (set_tif_sigpending p true)
    (if resume =? 0 then TASK_INTERRUPTIBLE
     else Z.lor TASK_INTERRUPTIBLE TASK_WAKEKILL).

(** Modelled from the spec: [wake_up_process(p)], the plain wake
    ("transition scheduling state to runnable"). *)
Definition do_wake_up_process (p : task_struct) : task_struct :=
  set_state p TASK_RUNNING.

(** Modelled from the spec: [recalc_sigpending()], which recomputes the
    pending-interrupt marker of [current] from what is really pending. *)
Definition do_recalc_sigpending (p : task_struct) : task_struct :=
  set_tif_sigpending p (sig_pending p).

(** Modelled from the spec: [recalc_sigpending_and_wake(p)], the same for
    another task, which is woken when something is still pending. *)
Definition do_recalc_sigpending_and_wake (p : task_struct) : task_struct :=
  if sig_pending p then do_signal_wake_up p 0
  else set_tif_sigpending p false.

(** ** Coordinator side: [freeze_task] and [__thaw_task] *)

(** [fake_signal_wake_up], lines 108-115. *)
Definition fake_signal_wake_up (p : task_struct) : task_struct * list call :=
  (do_signal_wake_up p 1, [Call_signal_wake_up 1]).

(** [freeze_task], lines 128-152: the result, the task afterwards and the
    calls made, all under [freezer_lock]. *)
Definition freeze_task (w : world) (p : task_struct)
  : bool * task_struct * list call :=
  if negb (freezing w p) || frozen p then (false, p, [])
  else if should_send_signal p then
    let '(p', cs) := fake_signal_wake_up p in (true, p', cs)
  else
    (true, do_wake_up_state p TASK_INTERRUPTIBLE,
     [Call_wake_up_state TASK_INTERRUPTIBLE]).

(** [__thaw_task], lines 154-176. *)
Definition __thaw_task (p : task_struct) : task_struct * list call :=
  if frozen p then (do_wake_up_process p, [Call_wake_up_process])
  else (do_recalc_sigpending_and_wake p, [Call_recalc_sigpending_and_wake]).

(** ** Task side: [__refrigerator] and [__set_freezable] as a machine *)

(** One program point per statement.  The [SF_] points are
    [__set_freezable] (lines 193-197), [TRY] is its call of
    [try_to_freeze()] (line 199), the [R_] points are [__refrigerator]
    (lines 54-104), and [DONE] is the return to the caller. *)
Inductive label : Type :=
| SF_lock            (* 193  spin_lock_irq(&freezer_lock) *)
| SF_clr_nofreeze    (* 194  current->flags &= ~PF_NOFREEZE *)
| SF_clr_nosig       (* 195  if (with_signal) current->flags &= ~PF_FREEZER_NOSIG *)
| SF_unlock          (* 197  spin_unlock_irq(&freezer_lock) *)
| TRY                (* 199  return try_to_freeze() *)
| R_entry            (*  54  was_frozen = false *)
| R_lock             (*  61  spin_lock_irq(&freezer_lock) *)
| R_repeat           (*  63  repeat: current->flags |= PF_FROZEN *)
| R_unlock           (*  64  spin_unlock_irq(&freezer_lock) *)
| R_save             (*  66  save = current->state *)
| R_recalc           (*  70  recalc_sigpending() *)
| R_set_freezing     (*  74  current->flags |= PF_FREEZING *)
| R_loop             (*  77  set_current_state(TASK_UNINTERRUPTIBLE) *)
| R_test             (*  78  if (!freezing(current) || ...) break *)
| R_mark             (*  81  was_frozen = true *)
| R_schedule         (*  82  schedule() *)
| R_clr_freezing     (*  86  current->flags &= ~PF_FREEZING *)
| R_lock_exit        (*  89  spin_lock_irq(&freezer_lock) *)
| R_recheck          (*  90  if (freezing(current)) goto repeat *)
| R_clr_frozen       (*  92  current->flags &= ~PF_FROZEN *)
| R_unlock_exit      (*  93  spin_unlock_irq(&freezer_lock) *)
| R_restore          (* 102  set_current_state(save) *)
| R_return           (* 104  return was_frozen *)
| DONE.

Definition label_eqb (a b : label) : bool :=
  match a, b with
  | SF_lock, SF_lock | SF_clr_nofreeze, SF_clr_nofreeze
  | SF_clr_nosig, SF_clr_nosig | SF_unlock, SF_unlock | TRY, TRY
  | R_entry, R_entry | R_lock, R_lock | R_repeat, R_repeat
  | R_unlock, R_unlock | R_save, R_save | R_recalc, R_recalc
  | R_set_freezing, R_set_freezing | R_loop, R_loop | R_test, R_test
  | R_mark, R_mark | R_schedule, R_schedule
  | R_clr_freezing, R_clr_freezing | R_lock_exit, R_lock_exit
  | R_recheck, R_recheck | R_clr_frozen, R_clr_frozen
  | R_unlock_exit, R_unlock_exit | R_restore, R_restore
  | R_return, R_return | DONE, DONE => true
  | _, _ => false
  end.

(** The state of the running task: where it is, [current], the freezing
    conditions as they stand, whether it holds [freezer_lock], the
    arguments and locals of the two functions, and the value returned. *)
Record config : Type := mk_config {
  pc : label;
  cur : task_struct;
  env : world;
  lock_held : bool;
  with_signal : bool;        (* argument of __set_freezable *)
  check_kthr_stop : bool;    (* argument of __refrigerator *)
  was_frozen : bool;         (* local of __refrigerator *)
  save : Z;                  (* local of __refrigerator *)
  ret : option bool
}.

Definition goto (l : label) (c : config) : config :=
  mk_config l (cur c) (env c) (lock_held c) (with_signal c)
    (check_kthr_stop c) (was_frozen c) (save c) (ret c).

Definition with_cur (p : task_struct) (c : config) : config :=
  mk_config (pc c) p (env c) (lock_held c) (with_signal c)
    (check_kthr_stop c) (was_frozen c) (save c) (ret c).

Definition with_env (w : world) (c : config) : config :=
  mk_config (pc c) (cur c) w (lock_held c) (with_signal c)
    (check_kthr_stop c) (was_frozen c) (save c) (ret c).

Definition with_lock (b : bool) (c : config) : config :=
  mk_config (pc c) (cur c) (env c) b (with_signal c)
    (check_kthr_stop c) (was_frozen c) (save c) (ret c).

Definition with_check (b : bool) (c : config) : config :=
  mk_config (pc c) (cur c) (env c) (lock_held c) (with_signal c)
    b (was_frozen c) (save c) (ret c).

Definition with_was_frozen (b : bool) (c : config) : config :=
  mk_config (pc c) (cur c) (env c) (lock_held c) (with_signal c)
    (check_kthr_stop c) b (save c) (ret c).

Definition with_save (s : Z) (c : config) : config :=
  mk_config (pc c) (cur c) (env c) (lock_held c) (with_signal c)
    (check_kthr_stop c) (was_frozen c) s (ret c).

Definition with_ret (b : bool) (c : config) : config :=
  mk_config (pc c) (cur c) (env c) (lock_held c) (with_signal c)
    (check_kthr_stop c) (was_frozen c) (save c) (Some b).

Definition upd_flags (f : Z -> Z) (c : config) : config :=
  with_cur (set_flags (cur c) (f (flags (cur c)))) c.

(** Modelled from the spec: [schedule()], the yield "until rescheduled":
    the task comes back runnable. *)
Definition do_schedule (p : task_struct) : task_struct :=
  set_state p TASK_RUNNING.

(** Modelled from the spec: [try_to_freeze()] of [include/linux/freezer.h],
    which is not part of the sources at hand: "evaluate should_freeze(self);
    if true, call enter_refrigerator and return its result; else return
    false".  The call is [__refrigerator(false)], in tail position. *)
Definition try_to_freeze (c : config) : config :=
  if freezing (env c) (cur c)
  then goto R_entry (with_check false c)
  else goto DONE (with_ret false c).

(** One statement of the task. *)
Definition step (c : config) : config :=
  match pc c with
  | SF_lock => goto SF_clr_nofreeze (with_lock true c)
  | SF_clr_nofreeze =>
      goto SF_clr_nosig (upd_flags (fun f => flag_clear f PF_NOFREEZE) c)
  | SF_clr_nosig =>
      goto SF_unlock
        (if with_signal c
         then upd_flags (fun f => flag_clear f PF_FREEZER_NOSIG) c
         else c)
  | SF_unlock => goto TRY (with_lock false c)
  | TRY => try_to_freeze c
  | R_entry => goto R_lock (with_was_frozen false c)
  | R_lock => goto R_repeat (with_lock true c)
  | R_repeat => goto R_unlock (upd_flags (fun f => flag_set f PF_FROZEN) c)
  | R_unlock => goto R_save (with_lock false c)
  | R_save => goto R_recalc (with_save (state (cur c)) c)
  | R_recalc => goto R_set_freezing (with_cur (do_recalc_sigpending (cur c)) c)
  | R_set_freezing =>
      goto R_loop (upd_flags (fun f => flag_set f PF_FREEZING) c)
  | R_loop => goto R_test (with_cur (set_state (cur c) TASK_UNINTERRUPTIBLE) c)
  | R_test =>
      if negb (freezing (env c) (cur c))
         || (check_kthr_stop c && kthread_should_stop (env c) (pid (cur c)))
      then goto R_clr_freezing c
      else goto R_mark c
  | R_mark => goto R_schedule (with_was_frozen true c)
  | R_schedule => goto R_loop (with_cur (do_schedule (cur c)) c)
  | R_clr_freezing =>
      goto R_lock_exit (upd_flags (fun f => flag_clear f PF_FREEZING) c)
  | R_lock_exit => goto R_recheck (with_lock true c)
  | R_recheck =>
      if freezing (env c) (cur c) then goto R_repeat c
      else goto R_clr_frozen c
  | R_clr_frozen =>
      goto R_unlock_exit (upd_flags (fun f => flag_clear f PF_FROZEN) c)
  | R_unlock_exit => goto R_restore (with_lock false c)
  | R_restore => goto R_return (with_cur (set_state (cur c) (save c)) c)
  | R_return => goto DONE (with_ret (was_frozen c) c)
  | DONE => c
  end.

(** The task after one call of the coordinator, and after all the calls
    that the coordinator makes on it in [w]. *)
Definition call_on (w : world) (p : task_struct) (k : intervention)
  : task_struct :=
  match k with
  | Freeze_task_call => snd (fst (freeze_task w p))
  | Thaw_task_call => fst (__thaw_task p)
  end.

Definition called (w : world) (p : task_struct) : task_struct :=
  fold_left (call_on w) (coordinator w) p.

(** The environment (freezers and thawers on other CPUs, the cgroup freezer,
    whoever stops the kthread) moves between two statements of the task.  It
    replaces the freezing conditions, also while the task holds
    [freezer_lock]: [pm_freezing] and [pm_nosig_freezing] are protected by
    [pm_mutex] and [system_freezing_cnt] is an atomic (lines 14-23).  And it
    may run [freeze_task] or [__thaw_task] on the task, which write its state
    and its pending-interrupt marker; both take [freezer_lock] (lines 132,
    167), so they get in only while the task does not hold it. *)
Definition env_move (w : world) (c : config) : config :=
  if lock_held c then with_env w c
  else with_cur (called w (cur c)) (with_env w c).

(** An execution against a schedule of the environment: before each
    statement the environment moves.  [h] collects, latest first, the
    configurations in which the statements were executed. *)
Fixpoint run (ws : list world) (h : list config) (c : config)
  : list config * config :=
  match ws with
  | [] => (h, c)
  | w :: ws' => let c1 := env_move w c in run ws' (c1 :: h) (step c1)
  end.

Definition exec (ws : list world) (c : config) : config := snd (run ws [] c).
Definition hist (ws : list world) (c : config) : list config :=
  fst (run ws [] c).

(** The three ways into the machine. *)
Definition refrigerator_call (p : task_struct) (w : world) (chk : bool)
  : config :=
  mk_config R_entry p w false false chk false 0 None.

Definition try_to_freeze_call (p : task_struct) (w : world) : config :=
  mk_config TRY p w false false false false 0 None.

Definition set_freezable_call (p : task_struct) (w : world) (sig : bool)
  : config :=
  mk_config SF_lock p w false sig false false 0 None.

Definition entry_config (c : config) : Prop :=
  (exists p w chk, c = refrigerator_call p w chk) \/
  (exists p w, c = try_to_freeze_call p w) \/
  (exists p w sig, c = set_freezable_call p w sig).

(** * Observations, invariants and sample inputs *)

(** ** What an execution shows *)

(** The exit re-check of line 90 found the task freezing again and jumped
    back to [repeat]. *)
Definition reenters (c : config) : bool :=
  label_eqb (pc c) R_recheck && freezing (env c) (cur c).

Definition reentered (h : list config) : bool := existsb reenters h.

Definition freezing_flag (c : config) : bool :=
  test_flag (flags (cur c)) PF_FREEZING.

Definition nofreeze_flag (c : config) : bool :=
  test_flag (flags (cur c)) PF_NOFREEZE.

(** The [freezing] flag was set at some instant up to now. *)
Definition seen_freezing (h : list config) (c : config) : bool :=
  existsb freezing_flag (c :: h).

(** No freezing condition applies to task [i], whatever its flags. *)
Definition idle (i : Z) (w : world) : bool :=
  negb (pm_freezing w || pm_nosig_freezing w || cgroup_freezing w i).

(** A no-signal freezing episode is in effect: the counter is up and
    [pm_nosig_freezing] is true. *)
Definition nosig_episode (w : world) : bool :=
  negb (system_freezing_cnt w =? 0) && pm_nosig_freezing w.

(** ** Sets of program points *)

(** Where [freezer_lock] is held: from each [spin_lock_irq] to the matching
    [spin_unlock_irq], the jump back to [repeat] included. *)
Definition locked_at (l : label) : bool :=
  match l with
  | SF_clr_nofreeze | SF_clr_nosig | SF_unlock
  | R_repeat | R_unlock | R_recheck | R_clr_frozen | R_unlock_exit => true
  | _ => false
  end.

(** The statements of [__refrigerator] between setting and clearing
    [PF_FROZEN]. *)
Definition frozen_at (l : label) : bool :=
  match l with
  | R_unlock | R_save | R_recalc | R_set_freezing | R_loop | R_test | R_mark
  | R_schedule | R_clr_freezing | R_lock_exit | R_recheck | R_clr_frozen =>
      true
  | _ => false
  end.

(** Inside [__refrigerator], its return included. *)
Definition in_refrigerator (l : label) : bool :=
  match l with
  | SF_lock | SF_clr_nofreeze | SF_clr_nosig | SF_unlock | TRY => false
  | _ => true
  end.

(** Up to line 66, from line 66 to line 102, and from line 102 on. *)
Definition before_save (l : label) : bool :=
  match l with
  | R_entry | R_lock | R_repeat | R_unlock | R_save => true
  | _ => false
  end.

Definition after_save (l : label) : bool :=
  match l with
  | R_recalc | R_set_freezing | R_loop | R_test | R_mark | R_schedule
  | R_clr_freezing | R_lock_exit | R_recheck | R_clr_frozen | R_unlock_exit
  | R_restore => true
  | _ => false
  end.

Definition returned (l : label) : bool :=
  match l with
  | R_return | DONE => true
  | _ => false
  end.

(** From line 77 to the exit re-check, [schedule()] apart: the state is the
    one line 77 has set. *)
Definition unint_at (l : label) : bool :=
  match l with
  | R_test | R_mark | R_schedule | R_clr_freezing | R_lock_exit | R_recheck =>
      true
  | _ => false
  end.

(** Lines 64 to 74: [PF_FROZEN] is set, [PF_FREEZING] is about to be. *)
Definition in_window (l : label) : bool :=
  match l with
  | R_unlock | R_save | R_recalc | R_set_freezing => true
  | _ => false
  end.

(** After line 92. *)
Definition cleared_at (l : label) : bool :=
  match l with
  | R_unlock_exit | R_restore | R_return | DONE => true
  | _ => false
  end.

(** Statements still to go once no freezing condition applies any more.  A
    re-check that was entered while the task was freezing first goes round
    through [repeat]. *)
Definition togo (c : config) : nat :=
  match pc c with
  | DONE => 0
  | R_return | TRY => 1
  | R_restore | SF_unlock => 2
  | R_unlock_exit | SF_clr_nosig => 3
  | R_clr_frozen | SF_clr_nofreeze => 4
  | R_recheck => if freezing (env c) (cur c) then 15 else 5
  | SF_lock => 5
  | R_lock_exit => 6
  | R_clr_freezing => 7
  | R_test => 8
  | R_loop => 9
  | R_set_freezing | R_schedule => 10
  | R_recalc | R_mark => 11
  | R_save => 12
  | R_unlock => 13
  | R_repeat => 14
  | R_lock => 15
  | R_entry => 16
  end%nat.



(** ** Invariants *)

Definition lock_ok (c : config) : Prop := lock_held c = locked_at (pc c).

(** Between line 64 and line 92 the task is frozen, and the lock is held
    where the code holds it. *)
Definition exit_inv (c : config) : Prop :=
  lock_ok c /\
  (frozen_at (pc c) = true -> frozen (cur c) = true).

(** The statement is line 66. *)
Definition saves (c : config) : bool := label_eqb (pc c) R_save.

(** The state of the task at the latest execution of line 66. *)
Definition state_at_save (h : list config) : option Z :=
  option_map (fun c => state (cur c)) (find saves h).

(** The coordinator makes no call on the task. *)
Definition no_call (w : world) : bool :=
  match coordinator w with
  | [] => true
  | _ => false
  end.

(** [w] with the coordinator making call [k]. *)
Definition calling (k : intervention) (w : world) : world :=
  mk_world (system_freezing_cnt w) (pm_freezing w) (pm_nosig_freezing w)
    (cgroup_freezing w) (kthread_should_stop w) [k].

(** The statements of lines 54 to 66. *)
Definition entry_statements : nat := 5.

(** [save] holds the state found at the latest line 66, and line 102 puts it
    back. *)
Definition saved_inv (h : list config) (c : config) : Prop :=
  in_refrigerator (pc c) = true /\
  (after_save (pc c) = true \/ returned (pc c) = true ->
   state_at_save h = Some (save c)) /\
  (pc c = R_return -> state (cur c) = save c).

(** Past line 66, as long as the exit re-check has not jumped back
    ([b = false]), [save] holds [S]. *)
Definition first_pass (S : Z) (b : bool) (c : config) : Prop :=
  in_refrigerator (pc c) = true /\
  (b = false -> before_save (pc c) = false /\ save c = S).

(** The two states a task can be found in after line 77: the one line 77
    sets, and runnable. *)
Definition blocked_or_runnable (s : Z) : Prop :=
  s = TASK_UNINTERRUPTIBLE \/ s = TASK_RUNNING.

(** Once the exit re-check has jumped back ([b = true]), what is saved and
    restored is one of these two. *)
Definition reentry_inv (b : bool) (c : config) : Prop :=
  in_refrigerator (pc c) = true /\
  (unint_at (pc c) = true -> blocked_or_runnable (state (cur c))) /\
  (pc c = R_entry \/ pc c = R_lock -> b = false) /\
  (b = true ->
   (before_save (pc c) = true -> blocked_or_runnable (state (cur c))) /\
   (after_save (pc c) = true \/ returned (pc c) = true ->
    blocked_or_runnable (save c))).

(** The same with no call from the coordinator: once the exit re-check has
    jumped back ([b = true]), what is saved and restored is the state the
    wait loop left behind. *)
Definition second_pass (b : bool) (c : config) : Prop :=
  in_refrigerator (pc c) = true /\
  (unint_at (pc c) = true -> state (cur c) = TASK_UNINTERRUPTIBLE) /\
  (pc c = R_entry \/ pc c = R_lock -> b = false) /\
  (b = true ->
   (before_save (pc c) = true -> state (cur c) = TASK_UNINTERRUPTIBLE) /\
   (after_save (pc c) = true -> save c = TASK_UNINTERRUPTIBLE) /\
   (returned (pc c) = true -> state (cur c) = TASK_UNINTERRUPTIBLE)).

(** A frozen task has had its [freezing] flag set, or is about to. *)
Definition frozen_after_freezing (h : list config) (c : config) : Prop :=
  frozen (cur c) = true ->
  seen_freezing h c = true \/ in_window (pc c) = true.

(** Through [try_to_freeze()]: outside [__refrigerator] the task is not
    frozen, and inside it has not opted out. *)
Definition checked_entry (c : config) : Prop :=
  (in_refrigerator (pc c) = false -> frozen (cur c) = false) /\
  (in_refrigerator (pc c) = true -> pc c <> DONE -> nofreeze_flag c = false) /\
  (cleared_at (pc c) = true -> frozen (cur c) = false).

(** A direct call: after line 92 the task is not frozen. *)
Definition direct_entry (c : config) : Prop :=
  in_refrigerator (pc c) = true /\
  (cleared_at (pc c) = true -> frozen (cur c) = false).



(** ** Auxiliary functions *)

(** The shape of [__thaw_task] over any two scheduler primitives. *)
Definition thaw_with (wake recalc : task_struct -> task_struct)
  (p : task_struct) : task_struct :=
  if frozen p then wake p else recalc p.




(** ** Sample inputs *)

(** Tasks: one asleep in an interruptible wait that was sent the fake
    signal; one whose [freezer_nosig] flag is set; one that has opted out;
    a kernel thread before it opts in. *)
Definition plain_task : task_struct :=
  mk_task 1 0 TASK_INTERRUPTIBLE true false.

Definition nosig_task : task_struct :=
  mk_task 7 PF_FREEZER_NOSIG TASK_RUNNING false false.

Definition nofreeze_task : task_struct :=
  mk_task 11 PF_NOFREEZE TASK_INTERRUPTIBLE false false.

Definition kthread_task : task_struct :=
  mk_task 2 (Z.lor PF_NOFREEZE PF_FREEZER_NOSIG) TASK_RUNNING false false.

(** Worlds: nothing is freezing; the suspend path is freezing with signals;
    it is freezing without signals; only [pm_freezing] is true of the
    registry while the cgroup freezer wants every task; every condition
    holds at once. *)
Definition thawed_world : world :=
  mk_world 0 false false (fun _ => false) (fun _ => false) [].

Definition pm_world : world :=
  mk_world 1 true false (fun _ => false) (fun _ => false) [].

Definition nosig_world : world :=
  mk_world 1 false true (fun _ => false) (fun _ => false) [].

Definition group_frozen_world : world :=
  mk_world 2 true false (fun _ => true) (fun _ => false) [].

Definition all_conditions_world : world :=
  mk_world 3 true true (fun _ => true) (fun _ => true) [].

(** One episode: the task goes round the wait loop twice, then is thawed. *)
Definition one_episode : list world :=
  repeat pm_world 16 ++ repeat thawed_world 8.

(** Two episodes: the first ends, the wait loop is left, and a second one
    has begun when the exit re-check tests [freezing(current)]. *)
Definition racing_episodes : list world :=
  repeat pm_world 8 ++ repeat thawed_world 2 ++ repeat pm_world 2 ++
  repeat thawed_world 15.

(** One episode in which the freeze request reaches the task as it enters
    the refrigerator, before line 66. *)
Definition woken_on_entry : list world :=
  [pm_world; calling Freeze_task_call pm_world] ++ repeat pm_world 14 ++
  repeat thawed_world 8.

(** Two episodes: the task sleeps, the first episode ends, the thaw reaches
    the task after it has left the wait loop, and a second episode has begun
    when the exit re-check tests [freezing(current)]. *)
Definition thaw_race : list world :=
  repeat pm_world 12 ++
  [thawed_world; calling Thaw_task_call thawed_world] ++
  repeat pm_world 8 ++ repeat thawed_world 8.

(** The configuration in which that exit re-check runs. *)
Definition recheck_config : config :=
  nth 15 (hist racing_episodes (refrigerator_call plain_task pm_world false))
    (refrigerator_call plain_task pm_world false).


(** ** Further observations *)

(** Lines 77 to 86: [PF_FREEZING] is set. *)
Definition freezing_at (l : label) : bool :=
  match l with
  | R_loop | R_test | R_mark | R_schedule | R_clr_freezing => true
  | _ => false
  end.

(** The two flags [__refrigerator] writes, read off the program point.  At
    [repeat] the [frozen] flag depends on the way in: clear from line 61, set
    from line 91. *)
Definition flags_by_point (c : config) : Prop :=
  (pc c <> R_repeat -> frozen (cur c) = frozen_at (pc c)) /\
  freezing_flag c = freezing_at (pc c).

(** The statement is [schedule()], or is [was_frozen = true]. *)
Definition calls_schedule (c : config) : bool := label_eqb (pc c) R_schedule.
Definition sets_was_frozen (c : config) : bool := label_eqb (pc c) R_mark.

(** [schedule()] was called in the course of the execution. *)
Definition slept (h : list config) : bool := existsb calls_schedule h.

(** What [was_frozen] and the value returned record. *)
Definition return_value_inv (h : list config) (c : config) : Prop :=
  was_frozen c = existsb sets_was_frozen h /\
  (in_refrigerator (pc c) = false \/ pc c = R_entry ->
   existsb sets_was_frozen h = false) /\
  (pc c <> R_schedule -> slept h = existsb sets_was_frozen h) /\
  (pc c = R_schedule -> existsb sets_was_frozen h = true) /\
  (pc c = DONE -> ret c = Some (slept h)).

(** Task [p] is freezing in world [w], and is moreover asked to stop. *)
Definition freezing_for (p : task_struct) (w : world) : bool := freezing w p.

Definition stopping_for (p : task_struct) (w : world) : bool :=
  freezing w p && kthread_should_stop w (pid p).

(** [current] is task [p] as far as [freezing] can tell. *)
Definition same_target (p : task_struct) (c : config) : Prop :=
  pid (cur c) = pid p /\
  test_flag (flags (cur c)) PF_NOFREEZE = test_flag (flags p) PF_NOFREEZE /\
  test_flag (flags (cur c)) PF_FREEZER_NOSIG =
    test_flag (flags p) PF_FREEZER_NOSIG.

(** While [p] is freezing the call is kept from line 92 and what follows. *)
Definition kept_in (p : task_struct) (c : config) : Prop :=
  in_refrigerator (pc c) = true /\ lock_ok c /\ same_target p c /\
  cleared_at (pc c) = false /\ pc c <> R_clr_frozen.

(** While [p] is moreover asked to stop, a call with [check_kthr_stop] set
    does not get to [was_frozen = true] or to [schedule()] either. *)
Definition spinning (p : task_struct) (c : config) : Prop :=
  kept_in p c /\ check_kthr_stop c = true /\ was_frozen c = false /\
  pc c <> R_mark /\ pc c <> R_schedule.

(** Two worlds with the same freezing conditions and the same call of the
    coordinator: they may differ in [kthread_should_stop()]. *)
Definition same_conditions (w w' : world) : Prop :=
  system_freezing_cnt w = system_freezing_cnt w' /\
  pm_freezing w = pm_freezing w' /\
  pm_nosig_freezing w = pm_nosig_freezing w' /\
  coordinator w = coordinator w' /\
  forall i, cgroup_freezing w i = cgroup_freezing w' i.

(** Two configurations of calls that do not check [kthread_should_stop()],
    alike but for that predicate. *)
Definition alike (c d : config) : Prop :=
  pc c = pc d /\ cur c = cur d /\ lock_held c = lock_held d /\
  with_signal c = with_signal d /\
  check_kthr_stop c = false /\ check_kthr_stop d = false /\
  was_frozen c = was_frozen d /\ save c = save d /\ ret c = ret d /\
  same_conditions (env c) (env d).

(** What a call started in [c0] leaves alone of the task, under mask [m]. *)
Definition framed (m : Z) (c0 c : config) : Prop :=
  (in_refrigerator (pc c) = false -> in_refrigerator (pc c0) = false) /\
  Z.land (flags (cur c)) m = Z.land (flags (cur c0)) m /\
  pid (cur c) = pid (cur c0) /\
  sig_pending (cur c) = sig_pending (cur c0).

(** What [__set_freezable(sig)] has done to the flags of task [p], by
    program point. *)
Definition opted_in (sig : bool) (p : task_struct) (c : config) : Prop :=
  pid (cur c) = pid p /\
  (pc c = SF_lock \/ pc c = SF_clr_nofreeze \/ pc c = SF_clr_nosig ->
   with_signal c = sig /\
   test_flag (flags (cur c)) PF_FREEZER_NOSIG =
     test_flag (flags p) PF_FREEZER_NOSIG) /\
  (pc c <> SF_lock -> pc c <> SF_clr_nofreeze -> nofreeze_flag c = false) /\
  (pc c <> SF_lock -> pc c <> SF_clr_nofreeze -> pc c <> SF_clr_nosig ->
   test_flag (flags (cur c)) PF_FREEZER_NOSIG =
     if sig then false else test_flag (flags p) PF_FREEZER_NOSIG).

(** A world in which the suspend path is freezing and the kernel thread is
    told to stop. *)
Definition stop_world : world :=
  mk_world 1 true false (fun _ => false) (fun _ => true) [].

(** The statement after each of lines 63 to 77. *)
Definition straight_on (l : label) : option label :=
  match l with
  | R_repeat => Some R_unlock
  | R_unlock => Some R_save
  | R_save => Some R_recalc
  | R_recalc => Some R_set_freezing
  | R_set_freezing => Some R_loop
  | R_loop => Some R_test
  | _ => None
  end.

(** An episode that is over when the wait loop and the exit re-check test
    it, and a new one that begins before line 92 runs. *)
Definition late_episode : list world :=
  repeat pm_world 8 ++ repeat thawed_world 4 ++ [pm_world].

(** The configuration in which line 92 then runs. *)
Definition late_clear_config : config :=
  hd (refrigerator_call plain_task pm_world false)
    (hist late_episode (refrigerator_call plain_task pm_world false)).

(** * Properties *)

(** ** Flag words *)

Section FlagWords.

Variables m n : Z.
Hypothesis disjoint : Z.land m n = 0.

Lemma disjoint_bits i : Z.testbit m i && Z.testbit n i = false.
Proof.
  rewrite <- Z.land_spec, disjoint. apply Z.bits_0.
Qed.

Lemma land_set_other f : Z.land (flag_set f m) n = Z.land f n.
Proof.
  unfold flag_set. apply Z.bits_inj'. intros i _.
  rewrite !Z.land_spec, Z.lor_spec.
  pose proof (disjoint_bits i) as D.
  destruct (Z.testbit f i), (Z.testbit m i), (Z.testbit n i);
    simpl in *; congruence.
Qed.

Lemma land_clear_other f : Z.land (flag_clear f m) n = Z.land f n.
Proof.
  unfold flag_clear. apply Z.bits_inj'. intros i Hi.
  rewrite !Z.land_spec, Z.lnot_spec by exact Hi.
  pose proof (disjoint_bits i) as D.
  destruct (Z.testbit f i), (Z.testbit m i), (Z.testbit n i);
    simpl in *; congruence.
Qed.

Lemma test_set_other f : test_flag (flag_set f m) n = test_flag f n.
Proof. unfold test_flag. now rewrite land_set_other. Qed.

Lemma test_clear_other f : test_flag (flag_clear f m) n = test_flag f n.
Proof. unfold test_flag. now rewrite land_clear_other. Qed.

End FlagWords.

Lemma land_set_same f m : Z.land (flag_set f m) m = m.
Proof.
  unfold flag_set. apply Z.bits_inj'. intros i _.
  rewrite Z.land_spec, Z.lor_spec.
  destruct (Z.testbit f i), (Z.testbit m i); reflexivity.
Qed.

Lemma land_clear_same f m : Z.land (flag_clear f m) m = 0.
Proof.
  unfold flag_clear. apply Z.bits_inj'. intros i Hi.
  rewrite !Z.land_spec, Z.lnot_spec, Z.bits_0 by exact Hi.
  destruct (Z.testbit f i), (Z.testbit m i); reflexivity.
Qed.

Lemma test_set_same f m : m <> 0 -> test_flag (flag_set f m) m = true.
Proof.
  intros Hm. unfold test_flag. rewrite land_set_same.
  apply Z.eqb_neq in Hm. now rewrite Hm.
Qed.

Lemma test_clear_same f m : test_flag (flag_clear f m) m = false.
Proof. unfold test_flag. now rewrite land_clear_same. Qed.

(** A flag word stays a 32-bit word under the two updates. *)
Lemma flag_set_range f m :
  0 <= f < 2 ^ 32 -> 0 <= m < 2 ^ 32 -> 0 <= flag_set f m < 2 ^ 32.
Proof.
  intros [Hf0 Hf] [Hm0 Hm]. unfold flag_set. split.
  - now apply Z.lor_nonneg.
  - destruct (Z.eq_dec (Z.lor f m) 0) as [E | E]; [rewrite E; lia |].
    apply Z.log2_lt_cancel. rewrite Z.log2_lor by assumption.
    assert (Z.log2 f < 32).
    { destruct (Z.eq_dec f 0) as [-> | ?]; [simpl; lia |].
      apply Z.log2_lt_pow2; lia. }
    assert (Z.log2 m < 32).
    { destruct (Z.eq_dec m 0) as [-> | ?]; [simpl; lia |].
      apply Z.log2_lt_pow2; lia. }
    rewrite Z.log2_pow2 by lia. lia.
Qed.

Lemma flag_clear_range f m :
  0 <= f < 2 ^ 32 -> 0 <= flag_clear f m < 2 ^ 32.
Proof.
  intros [Hf0 Hf]. unfold flag_clear.
  assert (H0 : 0 <= Z.land f (Z.lnot m)) by (apply Z.land_nonneg; now left).
  assert (H1 : 0 <= Z.land f m) by (apply Z.land_nonneg; now left).
  assert (Hsplit : Z.land f (Z.lnot m) + Z.land f m = f).
  { rewrite <- Z.add_lor_land.
    replace (Z.land (Z.land f (Z.lnot m)) (Z.land f m)) with 0.
    - rewrite Z.add_0_r. apply Z.bits_inj'. intros i Hi.
      rewrite Z.lor_spec, !Z.land_spec, Z.lnot_spec by exact Hi.
      destruct (Z.testbit f i), (Z.testbit m i); reflexivity.
    - symmetry. apply Z.bits_inj'. intros i Hi.
      rewrite !Z.land_spec, Z.lnot_spec, Z.bits_0 by exact Hi.
      destruct (Z.testbit f i), (Z.testbit m i); reflexivity. }
  lia.
Qed.

(** ** The freezing predicate *)

(** The predicate reads the task through its pid and two of its flags. *)
Lemma freezing_slow_path_ext w p q :
  pid p = pid q ->
  test_flag (flags p) PF_NOFREEZE = test_flag (flags q) PF_NOFREEZE ->
  test_flag (flags p) PF_FREEZER_NOSIG = test_flag (flags q) PF_FREEZER_NOSIG ->
  freezing_slow_path w p = freezing_slow_path w q.
Proof.
  intros Hp Hn Hs. unfold freezing_slow_path. now rewrite Hp, Hn, Hs.
Qed.

(** Under the registry invariant the counter gate of [freezing] is
    transparent: [freezing] and its slow path agree. *)
Lemma freezing_slow_path_wf w p :
  registry_wf w -> freezing w p = freezing_slow_path w p.
Proof.
  intros [_ Hz]. unfold freezing.
  destruct (Z.eqb_spec (system_freezing_cnt w) 0) as [E | E]; [| reflexivity].
  destruct (Hz E) as (Hpm & Hns & Hcg).
  unfold freezing_slow_path. rewrite Hpm, Hns, Hcg.
  now destruct (test_flag (flags p) PF_NOFREEZE).
Qed.

Lemma nofreeze_not_freezing w p :
  test_flag (flags p) PF_NOFREEZE = true -> freezing w p = false.
Proof.
  intros H. unfold freezing, freezing_slow_path. rewrite H.
  now destruct (system_freezing_cnt w =? 0).
Qed.

Lemma freezing_not_nofreeze w p :
  freezing w p = true -> test_flag (flags p) PF_NOFREEZE = false.
Proof.
  intros H. destruct (test_flag (flags p) PF_NOFREEZE) eqn:E; [| reflexivity].
  now rewrite (nofreeze_not_freezing w p E) in H.
Qed.

Lemma idle_not_freezing w p : idle (pid p) w = true -> freezing w p = false.
Proof.
  unfold idle, freezing, freezing_slow_path. intros H.
  apply negb_true_iff in H.
  apply orb_false_iff in H as [H Hc]. apply orb_false_iff in H as [Hp Hn].
  rewrite Hp, Hn, Hc.
  now destruct (system_freezing_cnt w =? 0), (test_flag (flags p) PF_NOFREEZE).
Qed.

(** C2, counterexample: a task with [freezer_nosig] set, under a registry
    with only [pm_freezing] (signaled freezing) true, is still told to
    freeze when the group predicate holds for it. *)
Lemma C2_group_freeze_counterexample :
  test_flag (flags nosig_task) PF_FREEZER_NOSIG = true /\
  pm_freezing group_frozen_world = true /\
  pm_nosig_freezing group_frozen_world = false /\
  freezing_slow_path group_frozen_world nosig_task = true.
Proof. repeat split; reflexivity. Qed.

(** C2, amended: [freezing_slow_path] evaluates, in this order: false when
    [no_freeze] is set; else true when [pm_nosig_freezing] is true or the
    group predicate holds; else true when [pm_freezing] is true and
    [freezer_nosig] is clear; else false.  A task with [freezer_nosig] set
    under a registry with only [pm_freezing] true gets false provided the
    group predicate does not hold for it. *)
Theorem C2_freezing_slow_path_order w p :
  (test_flag (flags p) PF_NOFREEZE = true -> freezing_slow_path w p = false) /\
  (test_flag (flags p) PF_NOFREEZE = false ->
   pm_nosig_freezing w = true \/ cgroup_freezing w (pid p) = true ->
   freezing_slow_path w p = true) /\
  (test_flag (flags p) PF_NOFREEZE = false ->
   pm_nosig_freezing w = false -> cgroup_freezing w (pid p) = false ->
   pm_freezing w = true -> test_flag (flags p) PF_FREEZER_NOSIG = false ->
   freezing_slow_path w p = true) /\
  (test_flag (flags p) PF_NOFREEZE = false ->
   pm_nosig_freezing w = false -> cgroup_freezing w (pid p) = false ->
   pm_freezing w = false \/ test_flag (flags p) PF_FREEZER_NOSIG = true ->
   freezing_slow_path w p = false) /\
  (test_flag (flags p) PF_FREEZER_NOSIG = true ->
   pm_nosig_freezing w = false -> cgroup_freezing w (pid p) = false ->
   freezing_slow_path w p = false).
Proof.
  unfold freezing_slow_path.
  repeat split.
  - intros ->. reflexivity.
  - intros -> [-> | ->]; [reflexivity | now rewrite orb_true_r].
  - intros -> -> -> -> ->. reflexivity.
  - intros -> -> -> [-> | ->]; [reflexivity | now rewrite andb_false_r].
  - intros -> -> ->. simpl. rewrite andb_false_r.
    now destruct (test_flag (flags p) PF_NOFREEZE).
Qed.

(** C2 at a task with [freezer_nosig] set while the suspend path is
    freezing with signals and no group freeze is on. *)
Lemma C2_scenario_witness :
  test_flag (flags nosig_task) PF_FREEZER_NOSIG = true /\
  freezing_slow_path pm_world nosig_task = false.
Proof.
  split; [reflexivity |].
  apply (proj2 (proj2 (proj2 (proj2
           (C2_freezing_slow_path_order pm_world nosig_task)))));
    reflexivity.
Defined.

(** ** [freeze_task] *)

(** C3: [freeze_task] returns false exactly when the target is not
    freezing or is already frozen, and then does nothing; otherwise it makes
    exactly one wake call, the signal-like one (which sets the
    pending-interrupt marker) when [freezer_nosig] is clear and the plain
    wake of an interruptible sleeper otherwise, and returns true. *)
Theorem C3_freeze_task_result w p :
  let '(r, p', cs) := freeze_task w p in
  (r = false <-> freezing w p = false \/ frozen p = true) /\
  (r = false -> p' = p /\ cs = []) /\
  (r = true ->
   length cs = 1%nat /\
   (test_flag (flags p) PF_FREEZER_NOSIG = false ->
    cs = [Call_signal_wake_up 1] /\ p' = do_signal_wake_up p 1 /\
    tif_sigpending p' = true) /\
   (test_flag (flags p) PF_FREEZER_NOSIG = true ->
    cs = [Call_wake_up_state TASK_INTERRUPTIBLE] /\
    p' = do_wake_up_state p TASK_INTERRUPTIBLE /\
    tif_sigpending p' = tif_sigpending p)).
Proof.
  unfold freeze_task, should_send_signal, fake_signal_wake_up.
  destruct (freezing w p) eqn:Hf, (frozen p) eqn:Hz; simpl.
  - split; [split; auto | split; [auto | discriminate]].
  - destruct (test_flag (flags p) PF_FREEZER_NOSIG) eqn:Hs; simpl.
    + split; [split; [discriminate | intros [? | ?]; discriminate] |].
      split; [discriminate |]. intros _.
      split; [reflexivity |]. split; [discriminate |]. intros _.
      repeat split. unfold do_wake_up_state.
      now destruct (Z.land (state p) TASK_INTERRUPTIBLE =? 0).
    + split; [split; [discriminate | intros [? | ?]; discriminate] |].
      split; [discriminate |]. intros _.
      split; [reflexivity |]. split; [| discriminate]. intros _.
      repeat split. unfold do_signal_wake_up, do_wake_up_state. simpl.
      now destruct (Z.land (state p) _ =? 0).
  - split; [split; auto | split; [auto | discriminate]].
  - split; [split; auto | split; [auto | discriminate]].
Qed.

(** C7: a task whose [no_freeze] flag is set is never a freeze target:
    the slow path and [freezing] are false and [freeze_task] returns false
    without touching it, whatever the counter, the two registry flags, the
    group predicate and the rest of the task are. *)
Theorem C7_nofreeze_never_target w p :
  test_flag (flags p) PF_NOFREEZE = true ->
  freezing_slow_path w p = false /\
  freezing w p = false /\
  freeze_task w p = (false, p, []).
Proof.
  intros H. split; [| split].
  - unfold freezing_slow_path. now rewrite H.
  - now apply nofreeze_not_freezing.
  - unfold freeze_task. now rewrite (nofreeze_not_freezing w p H).
Qed.

(** C7 at an opted-out task with every freezing condition in effect. *)
Lemma C7_nofreeze_witness :
  freezing_slow_path all_conditions_world nofreeze_task = false /\
  freezing all_conditions_world nofreeze_task = false /\
  freeze_task all_conditions_world nofreeze_task = (false, nofreeze_task, []).
Proof.
  apply (C7_nofreeze_never_target all_conditions_world nofreeze_task).
  reflexivity.
Defined.

(** ** [__thaw_task] *)

Section ThawWith.

(** Two primitives that are idempotent and leave the [frozen] flag alone. *)
Variables wake recalc : task_struct -> task_struct.
Hypothesis wake_idem : forall p, wake (wake p) = wake p.
Hypothesis recalc_idem : forall p, recalc (recalc p) = recalc p.
Hypothesis wake_frozen : forall p, frozen (wake p) = frozen p.
Hypothesis recalc_frozen : forall p, frozen (recalc p) = frozen p.

Lemma thaw_with_idem p :
  thaw_with wake recalc (thaw_with wake recalc p) = thaw_with wake recalc p.
Proof.
  unfold thaw_with. destruct (frozen p) eqn:E.
  - rewrite wake_frozen, E. apply wake_idem.
  - rewrite recalc_frozen, E. apply recalc_idem.
Qed.

End ThawWith.

Lemma do_wake_up_process_idem p :
  do_wake_up_process (do_wake_up_process p) = do_wake_up_process p.
Proof. reflexivity. Qed.

Lemma do_recalc_sigpending_and_wake_idem p :
  do_recalc_sigpending_and_wake (do_recalc_sigpending_and_wake p) =
  do_recalc_sigpending_and_wake p.
Proof.
  unfold do_recalc_sigpending_and_wake, do_signal_wake_up, do_wake_up_state.
  destruct p as [i f s t sp]. simpl.
  destruct sp; simpl; [| reflexivity].
  destruct (Z.land s TASK_INTERRUPTIBLE =? 0) eqn:E; simpl.
  - now rewrite E.
  - reflexivity.
Qed.

Lemma do_recalc_sigpending_and_wake_flags p :
  flags (do_recalc_sigpending_and_wake p) = flags p.
Proof.
  unfold do_recalc_sigpending_and_wake, do_signal_wake_up, do_wake_up_state.
  destruct (sig_pending p); simpl; [| reflexivity].
  now destruct (Z.land (state p) TASK_INTERRUPTIBLE =? 0).
Qed.

Lemma thaw_task_as_thaw_with p :
  fst (__thaw_task p) =
  thaw_with do_wake_up_process do_recalc_sigpending_and_wake p.
Proof. unfold __thaw_task, thaw_with. now destruct (frozen p). Qed.

(** C8: [__thaw_task] is idempotent: the task after two calls in a row is
    the task after one.  On a task that is not frozen the one thing it does
    is the reconciliation of the pending-notification bookkeeping; the
    flags of the task are untouched. *)
Theorem C8_thaw_task_idempotent p :
  fst (__thaw_task (fst (__thaw_task p))) = fst (__thaw_task p) /\
  (frozen p = false ->
   __thaw_task p =
     (do_recalc_sigpending_and_wake p, [Call_recalc_sigpending_and_wake]) /\
   flags (fst (__thaw_task p)) = flags p /\
   pid (fst (__thaw_task p)) = pid p).
Proof.
  split.
  - rewrite !thaw_task_as_thaw_with. apply thaw_with_idem.
    + exact do_wake_up_process_idem.
    + exact do_recalc_sigpending_and_wake_idem.
    + intros q. reflexivity.
    + intros q. unfold frozen. now rewrite do_recalc_sigpending_and_wake_flags.
  - intros Hz. unfold __thaw_task. rewrite Hz. simpl.
    split; [reflexivity |]. split.
    + apply do_recalc_sigpending_and_wake_flags.
    + unfold do_recalc_sigpending_and_wake, do_signal_wake_up, do_wake_up_state.
      destruct (sig_pending p); simpl; [| reflexivity].
      now destruct (Z.land (state p) TASK_INTERRUPTIBLE =? 0).
Qed.

(** ** The machine: executions and invariants *)

Arguments test_flag : simpl never.
Arguments flag_set : simpl never.
Arguments flag_clear : simpl never.
Arguments freezing : simpl never.
Arguments freezing_slow_path : simpl never.
Arguments called : simpl never.

Create Rewrite HintDb flagdb.
#[local] Hint Rewrite test_set_other test_clear_other
  using reflexivity : flagdb.
#[local] Hint Rewrite test_set_same using discriminate : flagdb.
#[local] Hint Rewrite test_clear_same : flagdb.

(** Case analysis on the statement a configuration is about to execute. *)
Ltac split_ifs :=
  repeat (match goal with
          | |- context [if ?b then _ else _] => destruct b eqn:?
          end; cbn in *).

Ltac by_statement c :=
  destruct c as [l p e lk sg ck wf sv r]; destruct l;
  cbn in *; unfold try_to_freeze in *; cbn in *;
  split_ifs; autorewrite with flagdb in *.

Lemma run_app ws1 ws2 h c :
  run (ws1 ++ ws2) h c =
  run ws2 (fst (run ws1 h c)) (snd (run ws1 h c)).
Proof.
  revert h c. induction ws1 as [| w ws1 IH]; intros h c; simpl.
  - reflexivity.
  - apply IH.
Qed.

Lemma exec_app ws1 ws2 c : exec (ws1 ++ ws2) c = snd (run ws2 (hist ws1 c) (exec ws1 c)).
Proof. unfold exec, hist. now rewrite run_app. Qed.

(** The final configuration does not depend on the history carried along. *)
Lemma run_snd ws h h' c : snd (run ws h c) = snd (run ws h' c).
Proof.
  revert h h' c. induction ws as [| w ws IH]; intros h h' c; simpl.
  - reflexivity.
  - apply IH.
Qed.

Lemma exec_app_exec ws1 ws2 c : exec (ws1 ++ ws2) c = exec ws2 (exec ws1 c).
Proof. rewrite exec_app. unfold exec. apply run_snd. Qed.

(** Induction over executions, for properties of a configuration together
    with the history that led to it. *)
Lemma run_invariant (I : list config -> config -> Prop) :
  (forall h c w, I h c -> I (env_move w c :: h) (step (env_move w c))) ->
  forall ws h c, I h c -> I (fst (run ws h c)) (snd (run ws h c)).
Proof.
  intros Hstep ws. induction ws as [| w ws IH]; intros h c HI; simpl.
  - exact HI.
  - apply IH, Hstep, HI.
Qed.

(** The same for properties of configurations alone: they hold of the final
    configuration and of every configuration in which a statement ran. *)
Lemma exec_invariant (P : config -> Prop) :
  (forall w c, P c -> P (env_move w c)) ->
  (forall c, P c -> P (step c)) ->
  forall ws c, P c -> P (exec ws c) /\ Forall P (hist ws c).
Proof.
  intros Henv Hstep ws c HP.
  apply (run_invariant (fun h c => P c /\ Forall P h)).
  - intros h d w [Hd Hh]. split.
    + apply Hstep, Henv, Hd.
    + constructor; [apply Henv, Hd | exact Hh].
  - split; [exact HP | constructor].
Qed.

(** What the coordinator's calls leave alone. *)
Lemma do_wake_up_state_flags p mask :
  flags (do_wake_up_state p mask) = flags p /\
  pid (do_wake_up_state p mask) = pid p /\
  sig_pending (do_wake_up_state p mask) = sig_pending p /\
  tif_sigpending (do_wake_up_state p mask) = tif_sigpending p.
Proof.
  unfold do_wake_up_state. now destruct (Z.land (state p) mask =? 0).
Qed.

Lemma freeze_task_flags w p :
  flags (snd (fst (freeze_task w p))) = flags p /\
  pid (snd (fst (freeze_task w p))) = pid p /\
  sig_pending (snd (fst (freeze_task w p))) = sig_pending p.
Proof.
  unfold freeze_task, fake_signal_wake_up, do_signal_wake_up.
  destruct (negb (freezing w p) || frozen p); [now repeat split |].
  destruct (should_send_signal p); cbn [fst snd].
  - destruct (do_wake_up_state_flags (set_tif_sigpending p true)
                (if 1 =? 0 then TASK_INTERRUPTIBLE
                 else Z.lor TASK_INTERRUPTIBLE TASK_WAKEKILL))
      as (H1 & H2 & H3 & _).
    now rewrite H1, H2, H3.
  - now destruct (do_wake_up_state_flags p TASK_INTERRUPTIBLE)
      as (H1 & H2 & H3 & _).
Qed.

Lemma thaw_task_flags p :
  flags (fst (__thaw_task p)) = flags p /\
  pid (fst (__thaw_task p)) = pid p /\
  sig_pending (fst (__thaw_task p)) = sig_pending p.
Proof.
  unfold __thaw_task, do_recalc_sigpending_and_wake, do_signal_wake_up.
  destruct (frozen p); cbn [fst]; [now repeat split |].
  destruct (sig_pending p) eqn:E; [| now rewrite ?E].
  destruct (do_wake_up_state_flags (set_tif_sigpending p true)
              (if 0 =? 0 then TASK_INTERRUPTIBLE
               else Z.lor TASK_INTERRUPTIBLE TASK_WAKEKILL))
    as (H1 & H2 & H3 & _).
  now rewrite H1, H2, H3.
Qed.

Lemma do_wake_up_state_state p mask :
  state (do_wake_up_state p mask) = state p \/
  state (do_wake_up_state p mask) = TASK_RUNNING.
Proof.
  unfold do_wake_up_state. destruct (Z.land (state p) mask =? 0); auto.
Qed.

Lemma call_on_flags w p k :
  flags (call_on w p k) = flags p /\ pid (call_on w p k) = pid p /\
  sig_pending (call_on w p k) = sig_pending p.
Proof.
  destruct k; [apply freeze_task_flags | apply thaw_task_flags].
Qed.

Lemma called_flags w p :
  flags (called w p) = flags p /\ pid (called w p) = pid p /\
  sig_pending (called w p) = sig_pending p.
Proof.
  unfold called. revert p.
  induction (coordinator w) as [| k ks IH]; intros p; cbn [fold_left].
  - now repeat split.
  - destruct (IH (call_on w p k)) as (-> & -> & ->). apply call_on_flags.
Qed.

(** A call leaves the state of the task or makes the task runnable. *)
Lemma call_on_state w p k :
  state (call_on w p k) = state p \/ state (call_on w p k) = TASK_RUNNING.
Proof.
  destruct k; cbn [call_on].
  - unfold freeze_task, fake_signal_wake_up, do_signal_wake_up.
    destruct (negb (freezing w p) || frozen p); [now left |].
    destruct (should_send_signal p); cbn [fst snd].
    + apply (do_wake_up_state_state (set_tif_sigpending p true)).
    + apply do_wake_up_state_state.
  - unfold __thaw_task, do_recalc_sigpending_and_wake, do_signal_wake_up.
    destruct (frozen p); cbn [fst]; [now right |].
    destruct (sig_pending p); [| now left].
    apply (do_wake_up_state_state (set_tif_sigpending p true)).
Qed.

Lemma called_state w p :
  state (called w p) = state p \/ state (called w p) = TASK_RUNNING.
Proof.
  unfold called. revert p.
  induction (coordinator w) as [| k ks IH]; intros p; cbn [fold_left].
  - now left.
  - destruct (IH (call_on w p k)) as [-> | ->]; [| now right].
    apply call_on_state.
Qed.

(** The environment writes the conditions and, through the calls, the state
    and the pending-interrupt marker of the task; nothing else. *)
Lemma env_move_shape w c :
  env_move w c = with_cur (cur (env_move w c)) (with_env w c).
Proof. unfold env_move. now destruct (lock_held c), c. Qed.

Lemma env_move_pc w c : pc (env_move w c) = pc c.
Proof. unfold env_move. now destruct (lock_held c). Qed.

Lemma env_move_env w c : env (env_move w c) = w.
Proof. unfold env_move. now destruct (lock_held c). Qed.

Lemma env_move_lock w c : lock_held (env_move w c) = lock_held c.
Proof. unfold env_move. now destruct (lock_held c) eqn:E. Qed.

Lemma env_move_locals w c :
  with_signal (env_move w c) = with_signal c /\
  check_kthr_stop (env_move w c) = check_kthr_stop c /\
  was_frozen (env_move w c) = was_frozen c /\
  save (env_move w c) = save c /\ ret (env_move w c) = ret c.
Proof. unfold env_move. now destruct (lock_held c). Qed.

Lemma env_move_locked w c :
  lock_held c = true -> env_move w c = with_env w c.
Proof. unfold env_move. now intros ->. Qed.

Lemma env_move_no_call w c :
  coordinator w = [] -> env_move w c = with_env w c.
Proof.
  unfold env_move, called. intros ->. now destruct (lock_held c), c.
Qed.

Lemma env_move_flags w c : flags (cur (env_move w c)) = flags (cur c).
Proof.
  unfold env_move. destruct (lock_held c); [reflexivity |].
  apply called_flags.
Qed.

Lemma env_move_pid w c : pid (cur (env_move w c)) = pid (cur c).
Proof.
  unfold env_move. destruct (lock_held c); [reflexivity |].
  apply called_flags.
Qed.

Lemma env_move_sig_pending w c :
  sig_pending (cur (env_move w c)) = sig_pending (cur c).
Proof.
  unfold env_move. destruct (lock_held c); [reflexivity |].
  apply called_flags.
Qed.

Lemma env_move_state w c :
  state (cur (env_move w c)) = state (cur c) \/
  state (cur (env_move w c)) = TASK_RUNNING.
Proof.
  unfold env_move. destruct (lock_held c); [now left |].
  apply called_state.
Qed.

Lemma env_move_frozen w c : frozen (cur (env_move w c)) = frozen (cur c).
Proof. unfold frozen. now rewrite env_move_flags. Qed.

Lemma env_move_freezing w' w c :
  freezing w' (cur (env_move w c)) = freezing w' (cur c).
Proof.
  unfold freezing.
  now rewrite (freezing_slow_path_ext w' (cur (env_move w c)) (cur c)
                 (env_move_pid w c))
    by now rewrite env_move_flags.
Qed.

(** To reason on the statement that follows a move of the environment: the
    task it finds is any task with the flags and the pid it had. *)
Ltac after_move w c q :=
  let Hf := fresh "Hflags" in
  let Hp := fresh "Hpid" in
  pose proof (env_move_flags w c) as Hf;
  pose proof (env_move_pid w c) as Hp;
  rewrite (env_move_shape w c) in *;
  generalize dependent (cur (env_move w c)); intros q Hf Hp.

Lemma step_pid c : pid (cur (step c)) = pid (cur c).
Proof. by_statement c; reflexivity. Qed.

Lemma lock_ok_env w c : lock_ok c -> lock_ok (env_move w c).
Proof. unfold lock_ok. now rewrite env_move_lock, env_move_pc. Qed.

Lemma lock_ok_step c : lock_ok c -> lock_ok (step c).
Proof.
  unfold lock_ok. by_statement c; intros H; try reflexivity; exact H.
Qed.

Lemma exit_inv_env w c : exit_inv c -> exit_inv (env_move w c).
Proof.
  intros (Hl & Hf). split; [now apply lock_ok_env |].
  now rewrite env_move_pc, env_move_frozen.
Qed.

Lemma exit_inv_step c : exit_inv c -> exit_inv (step c).
Proof.
  intros (Hl & Hf). split; [now apply lock_ok_step |].
  clear Hl. unfold frozen in *.
  by_statement c; intros F;
    try discriminate; try reflexivity; try assumption; now apply Hf.
Qed.

Lemma exit_inv_entry c0 : entry_config c0 -> exit_inv c0.
Proof.
  intros [(p & w & chk & ->) | [(p & w & ->) | (p & w & sig & ->)]];
    repeat split; discriminate.
Qed.

(** ** C1: leaving the refrigerator *)

(** The one statement that clears [PF_FROZEN] is line 92. *)
Lemma frozen_cleared_at c :
  frozen (cur c) = true -> frozen (cur (step c)) = false ->
  pc c = R_clr_frozen.
Proof.
  unfold frozen.
  by_statement c; intros H1 H2; try reflexivity; congruence.
Qed.

(** Line 92 is reached from the re-check of line 90 and from nowhere else,
    and only when the re-check found the task not freezing. *)
Lemma clr_frozen_reached_from c :
  pc (step c) = R_clr_frozen ->
  pc c = R_recheck /\ freezing (env c) (cur c) = false /\
  step c = goto R_clr_frozen c.
Proof.
  by_statement c; intros H; try discriminate; auto.
Qed.

Lemma straight_on_step w c nxt :
  straight_on (pc c) = Some nxt -> pc (step (env_move w c)) = nxt.
Proof.
  pose proof (env_move_pc w c) as Hpc. revert Hpc.
  generalize (env_move w c). intros d Hpc H. rewrite <- Hpc in H.
  clear Hpc. by_statement d; congruence.
Qed.

(** From [repeat] the whole procedure is gone through again: set
    [PF_FROZEN], unlock, save the state, clean the signal up, set
    [PF_FREEZING], and into the wait loop. *)
Lemma repeat_goes_through c w1 w2 w3 w4 w5 w6 :
  pc c = R_repeat ->
  map pc (rev (hist [w1; w2; w3; w4; w5; w6] c)) =
    [R_repeat; R_unlock; R_save; R_recalc; R_set_freezing; R_loop] /\
  pc (exec [w1; w2; w3; w4; w5; w6] c) = R_test.
Proof.
  intros H. unfold hist, exec. cbn [run fst snd rev app map].
  rewrite !env_move_pc.
  pose proof (straight_on_step w1 c R_unlock) as H1.
  rewrite H in H1. specialize (H1 eq_refl).
  set (c1 := step (env_move w1 c)) in *.
  pose proof (straight_on_step w2 c1 R_save) as H2.
  rewrite H1 in H2. specialize (H2 eq_refl).
  set (c2 := step (env_move w2 c1)) in *.
  pose proof (straight_on_step w3 c2 R_recalc) as H3.
  rewrite H2 in H3. specialize (H3 eq_refl).
  set (c3 := step (env_move w3 c2)) in *.
  pose proof (straight_on_step w4 c3 R_set_freezing) as H4.
  rewrite H3 in H4. specialize (H4 eq_refl).
  set (c4 := step (env_move w4 c3)) in *.
  pose proof (straight_on_step w5 c4 R_loop) as H5.
  rewrite H4 in H5. specialize (H5 eq_refl).
  set (c5 := step (env_move w5 c4)) in *.
  pose proof (straight_on_step w6 c5 R_test) as H6.
  rewrite H5 in H6. specialize (H6 eq_refl).
  now rewrite H, H1, H2, H3, H4, H5, H6.
Qed.

(** The configuration a statement has just produced is the step of the one
    at the head of the history. *)
Lemma run_last ws : forall h c,
  ws <> [] ->
  exists c' h', fst (run ws h c) = c' :: h' /\ snd (run ws h c) = step c'.
Proof.
  induction ws as [| w ws IH]; intros h c Hne; [contradiction |].
  simpl. destruct ws as [| w' ws'].
  - simpl. eauto.
  - apply IH. discriminate.
Qed.

(** C1, counterexample: the wait loop is left on an episode that is over,
    the exit re-check of line 90 finds the task not freezing, and a new
    episode begins before line 92 runs: [PF_FROZEN] is cleared, under the
    lock, while [freezing(current)] holds. *)
Lemma C1_cleared_while_freezing_counterexample :
  pc late_clear_config = R_clr_frozen /\
  lock_held late_clear_config = true /\
  frozen (cur late_clear_config) = true /\
  freezing (env late_clear_config) (cur late_clear_config) = true /\
  frozen (cur (step late_clear_config)) = false.
Proof. repeat split; reflexivity. Qed.

(** C1, amended: in every execution of [__refrigerator], called directly or
    through [try_to_freeze()], against every environment: [PF_FROZEN] is
    cleared by line 92 alone, never by the environment; line 92 runs with
    [freezer_lock] held and is reached only from the re-check of line 90
    having found [freezing(current)] false under that same hold of the
    lock, with nothing but the freezing conditions changed in between (no
    [freeze_task], no [__thaw_task]); and when the re-check finds the task
    freezing, it jumps to [repeat] with the flag still set and the whole
    procedure runs again.  The conditions themselves are not protected by
    the lock: nothing is said of [freezing(current)] at line 92. *)
Theorem C1_frozen_cleared_only_after_recheck c0 ws :
  entry_config c0 ->
  (forall c, In c (hist ws c0) ->
     (frozen (cur c) = true -> frozen (cur (step c)) = false ->
      pc c = R_clr_frozen) /\
     (pc c = R_clr_frozen -> lock_held c = true) /\
     (pc (step c) = R_clr_frozen ->
      pc c = R_recheck /\ lock_held c = true /\
      freezing (env c) (cur c) = false /\ step c = goto R_clr_frozen c) /\
     (pc c = R_recheck -> freezing (env c) (cur c) = true ->
      lock_held c = true /\ frozen (cur c) = true /\
      step c = goto R_repeat c /\
      forall w1 w2 w3 w4 w5 w6,
        map pc (rev (hist [w1; w2; w3; w4; w5; w6] (step c))) =
          [R_repeat; R_unlock; R_save; R_recalc; R_set_freezing; R_loop] /\
        pc (exec [w1; w2; w3; w4; w5; w6] (step c)) = R_test)) /\
  (forall w, frozen (cur (env_move w (exec ws c0))) =
             frozen (cur (exec ws c0))) /\
  (pc (exec ws c0) = R_clr_frozen ->
   exists c' h',
     hist ws c0 = c' :: h' /\ pc c' = R_recheck /\ lock_held c' = true /\
     freezing (env c') (cur c') = false /\
     exec ws c0 = goto R_clr_frozen c' /\
     forall w, env_move w (exec ws c0) = with_env w (exec ws c0)).
Proof.
  intros Hentry.
  pose proof (exec_invariant exit_inv exit_inv_env exit_inv_step ws
                c0 (exit_inv_entry c0 Hentry)) as [Hfin Hall].
  rewrite Forall_forall in Hall.
  split; [| split].
  - intros c Hin. destruct (Hall c Hin) as (Hl & Hf). unfold lock_ok in Hl.
    split; [apply frozen_cleared_at |].
    split; [intros E; now rewrite Hl, E |].
    split.
    { intros E. destruct (clr_frozen_reached_from c E) as (E1 & E2 & E3).
      repeat split; try assumption. now rewrite Hl, E1. }
    intros E Hfr.
    assert (Hlk : lock_held c = true) by now rewrite Hl, E.
    assert (Hst : step c = goto R_repeat c).
    { destruct c as [l q e lk sg ck wf sv r]. cbn in *. subst l.
      cbn. now rewrite Hfr. }
    repeat split; try assumption.
    + apply Hf. now rewrite E.
    + rewrite Hst.
      now destruct (repeat_goes_through (goto R_repeat c) w1 w2 w3 w4 w5 w6
                      eq_refl) as (? & _).
    + rewrite Hst.
      now destruct (repeat_goes_through (goto R_repeat c) w1 w2 w3 w4 w5 w6
                      eq_refl) as (_ & ?).
  - intros w. apply env_move_frozen.
  - intros E.
    destruct ws as [| w0 ws'].
    { destruct Hentry as [(p & w & chk & ->) | [(p & w & ->)
                                               | (p & w & sig & ->)]];
        discriminate E. }
    destruct (run_last (w0 :: ws') [] c0) as (c' & h' & Hh & Hc);
      [discriminate |].
    fold (hist (w0 :: ws') c0) in Hh. fold (exec (w0 :: ws') c0) in Hc.
    exists c', h'. split; [exact Hh |].
    rewrite Hc in E. destruct (clr_frozen_reached_from c' E) as (E1 & E2 & E3).
    assert (Hin : In c' (hist (w0 :: ws') c0)) by (rewrite Hh; now left).
    destruct (Hall c' Hin) as (Hl & _). unfold lock_ok in Hl.
    assert (Hlk : lock_held c' = true) by now rewrite Hl, E1.
    repeat split; try assumption.
    + now rewrite Hc.
    + intros w. apply env_move_locked. destruct Hfin as (Hl' & _).
      unfold lock_ok in Hl'. rewrite Hl'. rewrite Hc in *. now rewrite E.
Qed.

(** C1 at the exit re-check of a task caught between two episodes: the
    re-check finds it freezing, the flag stays, and control is at
    [repeat]. *)
Lemma C1_racing_episodes_witness :
  In recheck_config
     (hist racing_episodes (refrigerator_call plain_task pm_world false)) /\
  pc recheck_config = R_recheck /\
  freezing (env recheck_config) (cur recheck_config) = true /\
  frozen (cur recheck_config) = true /\
  pc (step recheck_config) = R_repeat.
Proof.
  assert (Hin : In recheck_config
                  (hist racing_episodes
                     (refrigerator_call plain_task pm_world false))).
  { unfold recheck_config. apply nth_In. vm_compute. lia. }
  split; [exact Hin |]. split; [reflexivity |]. split; [reflexivity |].
  assert (Hentry : entry_config (refrigerator_call plain_task pm_world false))
    by (left; now exists plain_task, pm_world, false).
  destruct (proj1 (C1_frozen_cleared_only_after_recheck
                     (refrigerator_call plain_task pm_world false)
                     racing_episodes Hentry) recheck_config Hin)
    as (_ & _ & _ & Hre).
  destruct (Hre eq_refl eq_refl) as (_ & Hz & Hst & _).
  split; [exact Hz | now rewrite Hst].
Defined.

(** ** Returning from the machine *)

Lemma togo_bound c : (togo c <= 16)%nat.
Proof. by_statement c; lia. Qed.

Lemma quiet_step_togo d :
  freezing (env d) (cur d) = false -> pc d <> DONE ->
  (togo (step d) < togo d)%nat.
Proof.
  intros Hf Hd.
  destruct d as [l p e lk sg ck wf sv r]. cbn in Hf, Hd.
  destruct l; cbn; unfold try_to_freeze, togo; cbn;
    rewrite ?Hf; cbn; split_ifs; try lia; congruence.
Qed.

Lemma togo_env w c :
  freezing w (cur c) = false -> (togo (env_move w c) <= togo c)%nat.
Proof.
  intros Hf. unfold togo.
  rewrite env_move_pc, env_move_env, env_move_freezing, Hf.
  destruct (pc c); try lia.
  destruct (freezing (env c) (cur c)); lia.
Qed.

Lemma idle_step_togo w c :
  idle (pid (cur c)) w = true -> pc c <> DONE ->
  (togo (step (env_move w c)) < togo c)%nat.
Proof.
  intros Hi Hd.
  pose proof (idle_not_freezing w (cur c) Hi) as Hf.
  pose proof (togo_env w c Hf) as Hle.
  assert (Hlt : (togo (step (env_move w c)) < togo (env_move w c))%nat).
  { apply quiet_step_togo.
    - now rewrite env_move_env, env_move_freezing.
    - now rewrite env_move_pc. }
  lia.
Qed.

Lemma step_done c : pc c = DONE -> step c = c.
Proof. destruct c as [l p e lk sg ck wf sv r]. cbn. now intros ->. Qed.

(** Progress: once the episode is over the call returns, in at most
    [togo] statements. *)
Lemma idle_returns ws : forall c,
  lock_ok c -> forallb (idle (pid (cur c))) ws = true ->
  (togo c <= length ws)%nat -> pc (exec ws c) = DONE.
Proof.
  unfold exec.
  induction ws as [| w ws IH]; intros c Hl Hi Hn; simpl in *.
  - destruct c as [l p e lk sg ck wf sv r].
    destruct l; cbn in *; try lia; try reflexivity.
    destruct (freezing e p); lia.
  - apply andb_true_iff in Hi as [Hw Hi].
    rewrite (run_snd ws _ []).
    assert (Hdec : pc c = DONE \/ pc c <> DONE).
    { destruct (pc c); auto; right; discriminate. }
    apply IH.
    + now apply lock_ok_step, lock_ok_env.
    + now rewrite step_pid, env_move_pid.
    + destruct Hdec as [Hd | Hd].
      * rewrite step_done by (now rewrite env_move_pc).
        assert (togo (env_move w c) = 0%nat); [| lia].
        unfold togo. now rewrite env_move_pc, Hd.
      * pose proof (idle_step_togo w c Hw Hd). lia.
Qed.

(** ** C4 and C10: the saved state *)

Lemma reentered_cons c h : reentered (c :: h) = reenters c || reentered h.
Proof. reflexivity. Qed.

Lemma reentered_run_mono ws : forall h c,
  reentered h = true -> reentered (fst (run ws h c)) = true.
Proof.
  induction ws as [| w ws IH]; intros h c H; simpl.
  - exact H.
  - apply IH. rewrite reentered_cons, H. apply orb_true_r.
Qed.

Lemma hist_app ws1 ws2 c :
  hist (ws1 ++ ws2) c = fst (run ws2 (hist ws1 c) (exec ws1 c)).
Proof. unfold hist, exec. now rewrite run_app. Qed.

Lemma exec_cons w ws c : exec (w :: ws) c = exec ws (step (env_move w c)).
Proof. unfold exec. simpl. apply run_snd. Qed.

Lemma exec_lock_ok ws c : lock_ok c -> lock_ok (exec ws c).
Proof.
  intros H. now apply (exec_invariant lock_ok lock_ok_env lock_ok_step).
Qed.

Lemma exec_pid ws c : pid (cur (exec ws c)) = pid (cur c).
Proof.
  apply (exec_invariant (fun d => pid (cur d) = pid (cur c))).
  - intros w d. now rewrite env_move_pid.
  - intros d. now rewrite step_pid.
  - reflexivity.
Qed.

(** Whatever happened before, the call returns once no condition applies
    for sixteen statements of the task. *)
Lemma episode_over_returns ws ws' c :
  lock_ok c -> forallb (idle (pid (cur c))) ws' = true ->
  (16 <= length ws')%nat -> pc (exec (ws ++ ws') c) = DONE.
Proof.
  intros Hl Hi Hn. rewrite exec_app_exec. apply idle_returns.
  - now apply exec_lock_ok.
  - now rewrite exec_pid.
  - pose proof (togo_bound (exec ws c)). lia.
Qed.

Lemma no_call_coordinator w : no_call w = true -> coordinator w = [].
Proof. unfold no_call. now destruct (coordinator w). Qed.

(** Line 102 restores what the latest line 66 saved. *)
Lemma saved_inv_step h d :
  in_refrigerator (pc d) = true ->
  (after_save (pc d) = true \/ returned (pc d) = true ->
   state_at_save h = Some (save d)) ->
  saved_inv (d :: h) (step d).
Proof.
  unfold saved_inv, state_at_save. cbn [find].
  destruct d as [l p e lk sg ck wf sv r].
  destruct l; cbn; unfold try_to_freeze; cbn;
    repeat (match goal with
            | |- context [if ?b then _ else _] => destruct b
            end; cbn);
    intros Hin H; try discriminate;
    repeat split; intros;
    try match goal with E : _ \/ _ |- _ => destruct E end;
    try discriminate; try reflexivity;
    apply H; auto.
Qed.

Lemma saved_inv_run c0 ws :
  in_refrigerator (pc c0) = true -> before_save (pc c0) = true ->
  saved_inv (hist ws c0) (exec ws c0).
Proof.
  intros Hin Hb. unfold hist, exec.
  apply (run_invariant saved_inv).
  - intros h c w (H1 & H2 & _). apply saved_inv_step.
    + now rewrite env_move_pc.
    + rewrite env_move_pc.
      destruct (env_move_locals w c) as (_ & _ & _ & -> & _). exact H2.
  - split; [exact Hin |]. split.
    + intros [E | E]; destruct (pc c0); discriminate.
    + intros E. rewrite E in Hb. discriminate.
Qed.

Lemma first_pass_env S b w c : first_pass S b c -> first_pass S b (env_move w c).
Proof.
  unfold first_pass. rewrite env_move_pc.
  now destruct (env_move_locals w c) as (_ & _ & _ & -> & _).
Qed.

Lemma first_pass_step S b c :
  first_pass S b c -> first_pass S (reenters c || b) (step c).
Proof.
  unfold first_pass, reenters.
  by_statement c; intros (Hin & H); try discriminate;
    (split; [reflexivity |]); intros Hb;
    try discriminate;
    (destruct b; [try discriminate; cbn in Hb; try discriminate;
                  try (rewrite ?orb_true_r in Hb; discriminate) |]);
    destruct (H eq_refl) as (H1 & H2);
    try discriminate; now split.
Qed.

(** With no call on the way in, line 66 saves the state of entry. *)
Lemma undisturbed_entry p w chk ws1 :
  length ws1 = entry_statements -> forallb no_call ws1 = true ->
  pc (exec ws1 (refrigerator_call p w chk)) = R_recalc /\
  save (exec ws1 (refrigerator_call p w chk)) = state p /\
  reentered (hist ws1 (refrigerator_call p w chk)) = false.
Proof.
  destruct ws1 as [| w1 [| w2 [| w3 [| w4 [| w5 [| w6 ws]]]]]];
    try discriminate.
  intros _ Hq. cbn [forallb] in Hq.
  apply andb_true_iff in Hq as [H1 Hq]. apply andb_true_iff in Hq as [H2 Hq].
  apply andb_true_iff in Hq as [H3 Hq]. apply andb_true_iff in Hq as [H4 Hq].
  apply andb_true_iff in Hq as [H5 _].
  apply no_call_coordinator in H1, H2, H3, H4, H5.
  unfold exec, hist. cbn [run fst snd].
  rewrite !env_move_no_call by assumption.
  repeat split.
Qed.

Lemma first_pass_run S ws : forall h c,
  first_pass S (reentered h) c ->
  first_pass S (reentered (fst (run ws h c))) (snd (run ws h c)).
Proof.
  intros h c H.
  apply (run_invariant (fun h d => first_pass S (reentered h) d)); [| exact H].
  intros h' d w' Hd. rewrite reentered_cons.
  apply first_pass_step, first_pass_env, Hd.
Qed.

(** C4, counterexample: a task in an interruptible wait enters the
    refrigerator; the freeze request of that same episode reaches it before
    line 66 and makes it runnable; the episode ends, there is no
    cancellation and no second episode; the task returns runnable. *)
Lemma C4_woken_on_entry_counterexample :
  state plain_task = TASK_INTERRUPTIBLE /\
  pc (exec woken_on_entry (refrigerator_call plain_task pm_world false))
    = DONE /\
  reentered (hist woken_on_entry
               (refrigerator_call plain_task pm_world false)) = false /\
  state (cur (exec woken_on_entry
                (refrigerator_call plain_task pm_world false)))
    = TASK_RUNNING.
Proof. repeat split; reflexivity. Qed.

(** C4, amended: in a call of [__refrigerator], line 102 restores the state
    the task was found in at the latest line 66.  With no jump back from the
    exit re-check this is the state at entry, whatever it was and however
    long the episode lasted, provided no [freeze_task] or [__thaw_task]
    reached the task on its way from entry to line 66; it is still the state
    of the task on return when none reaches it between line 102 and the
    return.  The call does return once the episode is over. *)
Theorem C4_state_restored_on_single_pass p w chk ws :
  let c0 := refrigerator_call p w chk in
  (pc (exec ws c0) = R_return ->
   state_at_save (hist ws c0) = Some (state (cur (exec ws c0)))) /\
  (forall ws1 ws2,
     ws = ws1 ++ ws2 -> length ws1 = entry_statements ->
     forallb no_call ws1 = true ->
     reentered (hist ws c0) = false -> pc (exec ws c0) = R_return ->
     state (cur (exec ws c0)) = state p) /\
  (pc (exec ws c0) = R_return ->
   forall w', no_call w' = true ->
     pc (exec (ws ++ [w']) c0) = DONE /\
     cur (exec (ws ++ [w']) c0) = cur (exec ws c0)) /\
  (forall ws', forallb (idle (pid p)) ws' = true ->
               (16 <= length ws')%nat ->
               pc (exec (ws ++ ws') c0) = DONE).
Proof.
  intros c0.
  destruct (saved_inv_run c0 ws eq_refl eq_refl) as (_ & Hs & Hr).
  split; [| split; [| split]].
  - intros E. rewrite (Hr E). apply Hs. right. now rewrite E.
  - intros ws1 ws2 -> Hlen Hq Hre E.
    destruct (undisturbed_entry p w chk ws1 Hlen Hq) as (Hpc & Hsv & Hre1).
    fold c0 in Hpc, Hsv, Hre1.
    assert (H0 : first_pass (state p) (reentered (hist ws1 c0)) (exec ws1 c0)).
    { split; [now rewrite Hpc |]. intros _. now rewrite Hpc. }
    pose proof (first_pass_run (state p) ws2 _ _ H0) as (_ & H).
    rewrite <- hist_app, <- exec_app in H.
    destruct (H Hre) as (_ & Hsave). rewrite (Hr E). exact Hsave.
  - intros E w' Hw'. rewrite exec_app_exec.
    unfold exec at 1 3. cbn [run snd].
    rewrite (env_move_no_call _ _ (no_call_coordinator w' Hw')).
    fold (exec ws c0). destruct (exec ws c0) as [l q e lk sg ck wf sv r].
    cbn in E. subst l. now split.
  - intros ws' Hi Hn. now apply episode_over_returns.
Qed.

(** C4 at a task in an interruptible wait frozen for two rounds of the wait
    loop with no call on its way in: line 102 puts it back in its
    interruptible wait. *)
Lemma C4_one_episode_witness :
  pc (exec (repeat pm_world 16 ++ repeat thawed_world 7)
        (refrigerator_call plain_task pm_world false)) = R_return /\
  state (cur (exec (repeat pm_world 16 ++ repeat thawed_world 7)
                (refrigerator_call plain_task pm_world false)))
    = TASK_INTERRUPTIBLE.
Proof.
  split; [reflexivity |].
  exact (proj1 (proj2 (C4_state_restored_on_single_pass
                         plain_task pm_world false
                         (repeat pm_world 16 ++ repeat thawed_world 7)))
           (repeat pm_world 5) (repeat pm_world 11 ++ repeat thawed_world 7)
           eq_refl eq_refl eq_refl eq_refl eq_refl).
Defined.

Lemma blocked_or_runnable_env w c :
  blocked_or_runnable (state (cur c)) ->
  blocked_or_runnable (state (cur (env_move w c))).
Proof.
  unfold blocked_or_runnable. intros H.
  destruct (env_move_state w c) as [-> | ->]; auto.
Qed.

Lemma reentry_inv_env b w c : reentry_inv b c -> reentry_inv b (env_move w c).
Proof.
  unfold reentry_inv. rewrite env_move_pc.
  destruct (env_move_locals w c) as (_ & _ & _ & -> & _).
  intros (H1 & H2 & H3 & H4).
  split; [exact H1 |]. split; [| split; [exact H3 |]].
  - intros E. now apply blocked_or_runnable_env, H2.
  - intros Hb. destruct (H4 Hb) as (H5 & H6). split; [| exact H6].
    intros E. now apply blocked_or_runnable_env, H5.
Qed.

Lemma reentry_inv_step b c :
  reentry_inv b c -> reentry_inv (reenters c || b) (step c).
Proof.
  unfold reentry_inv, reenters, blocked_or_runnable.
  by_statement c; intros (Hin & Hu & He & H); try discriminate;
    (split; [reflexivity |]);
    (split; [intros; try discriminate; auto |]);
    (split; [intros [E | E]; try discriminate;
             try (apply He; auto) |]);
    intros Hb; cbn in Hb;
    try (rewrite (He (or_introl eq_refl)) in Hb; discriminate);
    try (rewrite (He (or_intror eq_refl)) in Hb; discriminate);
    (split; intros;
     try match goal with E : _ \/ _ |- _ => destruct E end;
     try discriminate; auto;
     try (apply Hu; reflexivity);
     try (destruct (H Hb) as (H1 & H2); auto)).
Qed.

Lemma reentry_inv_run ws c :
  reentry_inv false c ->
  reentry_inv (reentered (hist ws c)) (exec ws c).
Proof.
  intros H. unfold hist, exec.
  apply (run_invariant (fun h d => reentry_inv (reentered h) d)); [| exact H].
  intros h d w Hd. rewrite reentered_cons.
  apply reentry_inv_step, reentry_inv_env, Hd.
Qed.

Lemma second_pass_env b w c :
  no_call w = true -> second_pass b c -> second_pass b (env_move w c).
Proof.
  intros Hw. rewrite (env_move_no_call _ _ (no_call_coordinator w Hw)).
  unfold second_pass. now destruct c.
Qed.

Lemma second_pass_step b c :
  second_pass b c -> second_pass (reenters c || b) (step c).
Proof.
  unfold second_pass, reenters.
  by_statement c; intros (Hin & Hu & He & H); try discriminate;
    (split; [reflexivity |]);
    (split; [intros; try discriminate; try reflexivity; auto |]);
    (split; [intros [E | E]; try discriminate;
             try (apply He; auto) |]);
    intros Hb; cbn in Hb;
    try (rewrite (He (or_introl eq_refl)) in Hb; discriminate);
    try (rewrite (He (or_intror eq_refl)) in Hb; discriminate);
    repeat split; intros; try discriminate; try reflexivity;
    try (apply Hu; reflexivity);
    try (destruct (H Hb) as (H1 & H2 & H3); auto).
Qed.

Lemma second_pass_run ws : forall h c,
  forallb no_call ws = true -> second_pass (reentered h) c ->
  second_pass (reentered (fst (run ws h c))) (snd (run ws h c)).
Proof.
  induction ws as [| w ws IH]; intros h c Hq H.
  - exact H.
  - simpl in Hq. apply andb_true_iff in Hq as [Hw Hq]. simpl.
    apply IH; [exact Hq |]. rewrite reentered_cons.
    now apply second_pass_step, second_pass_env.
Qed.

(** C10, counterexample: the task sleeps, the episode ends and the wait
    loop is left, the thaw reaches the task at line 86 and makes it
    runnable, a second episode has begun at the exit re-check: line 66 runs
    again and saves [TASK_RUNNING], which is what the task returns in. *)
Lemma C10_thaw_race_counterexample :
  reentered (hist thaw_race (refrigerator_call plain_task pm_world false))
    = true /\
  pc (exec thaw_race (refrigerator_call plain_task pm_world false)) = DONE /\
  state (cur (exec thaw_race (refrigerator_call plain_task pm_world false)))
    = TASK_RUNNING /\
  TASK_RUNNING <> TASK_UNINTERRUPTIBLE.
Proof. repeat split; try reflexivity. discriminate. Qed.

(** C10, amended: once the exit re-check has jumped back to [repeat],
    line 66 runs again and overwrites [save] with the state the task is
    found in then: [TASK_UNINTERRUPTIBLE], left by line 77, or
    [TASK_RUNNING] when a [freeze_task] or [__thaw_task] has reached the
    task since.  That, and not the state the task was called in, is what
    line 102 restores; with no call from the coordinator it is
    [TASK_UNINTERRUPTIBLE]. *)
Theorem C10_reentry_restores_state_left_by_loop p w chk ws :
  let c0 := refrigerator_call p w chk in
  let c := exec ws c0 in
  reentered (hist ws c0) = true ->
  (pc c = R_save ->
   forall w',
     blocked_or_runnable (state (cur (env_move w' c))) /\
     save (step (env_move w' c)) = state (cur (env_move w' c))) /\
  (after_save (pc c) = true -> blocked_or_runnable (save c)) /\
  (pc c = R_return ->
   state (cur c) = save c /\ blocked_or_runnable (state (cur c)) /\
   (state p <> TASK_UNINTERRUPTIBLE -> state p <> TASK_RUNNING ->
    state (cur c) <> state p)) /\
  (forallb no_call ws = true ->
   (after_save (pc c) = true -> save c = TASK_UNINTERRUPTIBLE) /\
   (returned (pc c) = true -> state (cur c) = TASK_UNINTERRUPTIBLE)) /\
  (forall ws', forallb (idle (pid p)) ws' = true ->
               (16 <= length ws')%nat ->
               pc (exec (ws ++ ws') c0) = DONE).
Proof.
  intros c0 c Hr.
  assert (H0 : reentry_inv false c0).
  { split; [reflexivity |]. split; [discriminate |].
    split; [reflexivity | discriminate]. }
  pose proof (reentry_inv_run ws c0 H0) as (_ & _ & _ & H).
  destruct (H Hr) as (H1 & H2). fold c in H1, H2.
  destruct (saved_inv_run c0 ws eq_refl eq_refl) as (_ & _ & Hret).
  fold c in Hret.
  split; [| split; [| split; [| split]]].
  - intros E w'.
    assert (Hb : blocked_or_runnable (state (cur (env_move w' c)))).
    { apply blocked_or_runnable_env, H1. now rewrite E. }
    split; [exact Hb |].
    pose proof (env_move_pc w' c) as Hpc. rewrite E in Hpc.
    destruct (env_move w' c) as [l q e lk sg ck wf sv r].
    cbn in Hpc. subst l. reflexivity.
  - intros E. apply H2. now left.
  - intros E.
    assert (Hb : blocked_or_runnable (save c)).
    { apply H2. right. now rewrite E. }
    rewrite (Hret E). split; [reflexivity |]. split; [exact Hb |].
    intros Hn1 Hn2 Heq. rewrite Heq in Hb. destruct Hb; contradiction.
  - intros Hq.
    assert (H0' : second_pass (reentered []) c0).
    { split; [reflexivity |]. split; [discriminate |].
      split; [reflexivity | discriminate]. }
    pose proof (second_pass_run ws [] c0 Hq H0') as (_ & _ & _ & Hs).
    fold (hist ws c0) in Hs. fold (exec ws c0) in Hs. fold c in Hs.
    destruct (Hs Hr) as (_ & Hs2 & Hs3). now split.
  - intros ws' Hi Hn. now apply episode_over_returns.
Qed.

(** C10 at a task in an interruptible wait caught between two episodes, with
    no call from the coordinator: it returns in [TASK_UNINTERRUPTIBLE]. *)
Lemma C10_racing_episodes_witness :
  reentered (hist racing_episodes
               (refrigerator_call plain_task pm_world false)) = true /\
  state plain_task = TASK_INTERRUPTIBLE /\
  pc (exec racing_episodes (refrigerator_call plain_task pm_world false))
    = DONE /\
  state (cur (exec racing_episodes
                (refrigerator_call plain_task pm_world false)))
    = TASK_UNINTERRUPTIBLE.
Proof.
  split; [reflexivity |]. split; [reflexivity |]. split; [reflexivity |].
  exact (proj2 (proj1 (proj2 (proj2 (proj2
           (C10_reentry_restores_state_left_by_loop
              plain_task pm_world false racing_episodes eq_refl))))
           eq_refl) eq_refl).
Defined.

(** ** C5: frozen and freezing *)

Lemma seen_freezing_cons c1 h c :
  seen_freezing (c1 :: h) c = freezing_flag c || seen_freezing h c1.
Proof. reflexivity. Qed.

Lemma seen_freezing_env w h c :
  seen_freezing h (env_move w c) = seen_freezing h c.
Proof.
  unfold seen_freezing, freezing_flag. simpl. now rewrite env_move_flags.
Qed.

(** The one statement that sets [PF_FROZEN] is line 63. *)
Lemma frozen_set_at c :
  frozen (cur c) = false -> frozen (cur (step c)) = true -> pc c = R_repeat.
Proof.
  unfold frozen.
  by_statement c; intros H1 H2; try reflexivity; congruence.
Qed.

Lemma window_step c :
  frozen (cur c) = true -> in_window (pc c) = true ->
  in_window (pc (step c)) = true \/ freezing_flag (step c) = true.
Proof.
  unfold frozen, freezing_flag.
  by_statement c; intros H1 H2; try discriminate; auto.
Qed.

Lemma repeat_step_window c :
  pc c = R_repeat -> in_window (pc (step c)) = true.
Proof. by_statement c; intros H; try discriminate; reflexivity. Qed.

Lemma frozen_after_freezing_step h c w :
  frozen_after_freezing h c ->
  frozen_after_freezing (env_move w c :: h) (step (env_move w c)).
Proof.
  unfold frozen_after_freezing. intros IH Hz.
  rewrite seen_freezing_cons, seen_freezing_env.
  pose proof (env_move_frozen w c) as Hcur.
  pose proof (env_move_pc w c) as Hpc.
  destruct (frozen (cur c)) eqn:Hzc.
  - destruct (IH eq_refl) as [Hs | Hw].
    + left. rewrite Hs. apply orb_true_r.
    + rewrite <- Hpc in Hw.
      destruct (window_step _ Hcur Hw) as [H | H]; [now right |].
      left. now rewrite H.
  - right. apply repeat_step_window, frozen_set_at; [| exact Hz].
    exact Hcur.
Qed.

(** C5, counterexample: a task with no freezer flag set goes through
    [try_to_freeze()] while the suspend path is freezing; after line 63 it
    is frozen, and its [freezing] flag has not been set at any instant so
    far. *)
Lemma C5_frozen_before_freezing_counterexample :
  pc (exec (repeat pm_world 4) (try_to_freeze_call plain_task pm_world))
    = R_unlock /\
  frozen (cur (exec (repeat pm_world 4)
                 (try_to_freeze_call plain_task pm_world))) = true /\
  seen_freezing
    (hist (repeat pm_world 4) (try_to_freeze_call plain_task pm_world))
    (exec (repeat pm_world 4) (try_to_freeze_call plain_task pm_world))
    = false.
Proof. repeat split; reflexivity. Qed.

(** C5, amended: for a task that was not frozen when it entered, at every
    instant at which it is frozen either its [freezing] flag was set at or
    before that instant in the same call, or the task stands between line 63
    and line 74, where [PF_FROZEN] is already set and [PF_FREEZING] is set
    next. *)
Theorem C5_frozen_then_freezing_or_window c0 ws :
  frozen (cur c0) = false ->
  frozen (cur (exec ws c0)) = true ->
  seen_freezing (hist ws c0) (exec ws c0) = true \/
  in_window (pc (exec ws c0)) = true.
Proof.
  intros H0. unfold exec, hist.
  apply (run_invariant frozen_after_freezing).
  - intros h c w. apply frozen_after_freezing_step.
  - intros Hz. rewrite H0 in Hz. discriminate.
Qed.

(** C5 at a task in the wait loop: it is frozen and its [freezing] flag
    has been set. *)
Lemma C5_one_episode_witness :
  frozen (cur (exec (repeat pm_world 10)
                 (try_to_freeze_call plain_task pm_world))) = true /\
  (seen_freezing
     (hist (repeat pm_world 10) (try_to_freeze_call plain_task pm_world))
     (exec (repeat pm_world 10) (try_to_freeze_call plain_task pm_world))
     = true \/
   in_window (pc (exec (repeat pm_world 10)
                    (try_to_freeze_call plain_task pm_world))) = true).
Proof.
  split; [reflexivity |].
  apply (C5_frozen_then_freezing_or_window
           (try_to_freeze_call plain_task pm_world) (repeat pm_world 10));
    reflexivity.
Defined.

(** ** C6: opted-out tasks *)

Lemma checked_entry_env w c : checked_entry c -> checked_entry (env_move w c).
Proof.
  unfold checked_entry, nofreeze_flag.
  now rewrite env_move_pc, env_move_frozen, env_move_flags.
Qed.

Lemma checked_entry_step c : checked_entry c -> checked_entry (step c).
Proof.
  unfold checked_entry, nofreeze_flag, frozen.
  destruct c as [l p e lk sg ck wf sv r].
  destruct l; cbn; unfold try_to_freeze; cbn.
  5: { intros (H1 & H2 & H3). destruct (freezing e p) eqn:Hfr; cbn.
       - repeat split; intros; try discriminate.
         now apply (freezing_not_nofreeze e p).
       - repeat split; intros; try discriminate; try congruence; now apply H1. }
  all: split_ifs; autorewrite with flagdb; intros (H1 & H2 & H3);
    repeat split; intros; try discriminate; try reflexivity;
    try congruence; try (now apply H1); try (now apply H3);
    try (apply H2; congruence).
Qed.

Lemma direct_entry_env w c : direct_entry c -> direct_entry (env_move w c).
Proof. unfold direct_entry. now rewrite env_move_pc, env_move_frozen. Qed.

Lemma direct_entry_step c : direct_entry c -> direct_entry (step c).
Proof.
  unfold direct_entry, frozen.
  by_statement c; intros (H1 & H2); try discriminate;
    (split; [reflexivity |]); intros; try discriminate;
    try reflexivity; now apply H2.
Qed.

(** C6, counterexample: a task that has opted out calls [__refrigerator]
    directly; after line 63 it has [no_freeze] and [frozen] both set. *)
Lemma C6_direct_call_counterexample :
  nofreeze_flag (exec (repeat all_conditions_world 3)
                   (refrigerator_call nofreeze_task all_conditions_world false))
    = true /\
  frozen (cur (exec (repeat all_conditions_world 3)
                 (refrigerator_call nofreeze_task all_conditions_world false)))
    = true.
Proof. split; reflexivity. Qed.

(** C6, amended: for a task that is not frozen and reaches
    [__refrigerator] through the [freezing(current)] check of
    [try_to_freeze()], by itself or from [__set_freezable], at every instant
    [no_freeze] set implies [frozen] clear.  A direct call of
    [__refrigerator] sets [PF_FROZEN] whatever [no_freeze] is; there the
    implication is only known to hold again once line 92 has run, so on
    return. *)
Theorem C6_nofreeze_not_frozen_through_try p w sig chk ws :
  (frozen p = false ->
   forall c0, c0 = try_to_freeze_call p w \/ c0 = set_freezable_call p w sig ->
   nofreeze_flag (exec ws c0) = true -> frozen (cur (exec ws c0)) = false) /\
  (pc (exec ws (refrigerator_call p w chk)) = DONE ->
   frozen (cur (exec ws (refrigerator_call p w chk))) = false).
Proof.
  split.
  - intros Hz c0 Hc0 Hn.
    assert (H0 : checked_entry c0).
    { destruct Hc0 as [-> | ->]; repeat split; intros; try discriminate;
        exact Hz. }
    destruct (exec_invariant checked_entry checked_entry_env
                checked_entry_step ws c0 H0) as ((H1 & H2 & H3) & _).
    destruct (in_refrigerator (pc (exec ws c0))) eqn:Ein; [| now apply H1].
    destruct (cleared_at (pc (exec ws c0))) eqn:Ecl; [now apply H3 |].
    assert (Hnd : pc (exec ws c0) <> DONE).
    { intros E. rewrite E in Ecl. discriminate. }
    rewrite (H2 eq_refl Hnd) in Hn. discriminate.
  - intros Hd.
    assert (H0 : direct_entry (refrigerator_call p w chk))
      by (split; [reflexivity | discriminate]).
    destruct (exec_invariant direct_entry direct_entry_env direct_entry_step
                ws _ H0) as ((_ & H) & _).
    apply H. now rewrite Hd.
Qed.

(** C6 at an opted-out task that has just taken [freezer_lock] in
    [__set_freezable]. *)
Lemma C6_set_freezable_witness :
  nofreeze_flag (exec [pm_world]
                   (set_freezable_call nofreeze_task pm_world true)) = true /\
  frozen (cur (exec [pm_world]
                 (set_freezable_call nofreeze_task pm_world true))) = false.
Proof.
  split; [reflexivity |].
  apply (proj1 (C6_nofreeze_not_frozen_through_try
                  nofreeze_task pm_world true false [pm_world])
           eq_refl _ (or_intror eq_refl)).
  reflexivity.
Defined.

(** ** C9: [__set_freezable] *)







(** Under the registry invariant [pm_nosig_freezing] alone says that a
    no-signal episode is in effect. *)
Lemma registry_wf_nosig_episode w :
  registry_wf w -> pm_nosig_freezing w = true -> nosig_episode w = true.
Proof.
  intros [_ Hz] Hns. unfold nosig_episode. rewrite Hns, andb_true_r.
  destruct (Z.eqb_spec (system_freezing_cnt w) 0) as [E | E]; [| reflexivity].
  destruct (Hz E) as (_ & H & _). congruence.
Qed.















(** * Further properties of the code *)

(** ** What the task-side code leaves alone *)

Section Frame.

Variable m : Z.
Hypothesis frozen_out : Z.land PF_FROZEN m = 0.
Hypothesis freezing_out : Z.land PF_FREEZING m = 0.

Variable c0 : config.
Hypothesis opt_out :
  in_refrigerator (pc c0) = false ->
  Z.land PF_NOFREEZE m = 0 /\ Z.land PF_FREEZER_NOSIG m = 0.

Lemma framed_env w c : framed m c0 c -> framed m c0 (env_move w c).
Proof.
  unfold framed.
  now rewrite env_move_pc, env_move_flags, env_move_pid, env_move_sig_pending.
Qed.

Lemma framed_step c : framed m c0 c -> framed m c0 (step c).
Proof.
  unfold framed. intros (Hin & Hf & Hp & Hs).
  destruct c as [l p e lk sg ck wf sv r].
  cbn [pc cur] in Hin, Hf, Hp, Hs.
  assert (Hopt : in_refrigerator l = false ->
                 Z.land PF_NOFREEZE m = 0 /\ Z.land PF_FREEZER_NOSIG m = 0)
    by (intros E; apply opt_out, Hin, E).
  destruct l; cbn [in_refrigerator] in Hin, Hopt;
    try (destruct (Hopt eq_refl) as [Hnf Hns]); clear Hopt;
    cbn; unfold try_to_freeze; cbn;
    repeat (match goal with
            | |- context [if ?b then _ else _] => destruct b
            end; cbn);
    rewrite ?land_set_other, ?land_clear_other by assumption;
    repeat split; intros; try discriminate; try assumption;
    now apply Hin.
Qed.

Lemma framed_exec ws : framed m c0 (exec ws c0).
Proof.
  apply (exec_invariant (framed m c0) framed_env framed_step).
  repeat split; auto.
Qed.

End Frame.

(** Frame: a call of [__refrigerator] leaves alone every flag bit of the
    task other than [PF_FROZEN] and [PF_FREEZING], its pid and its pending
    signals, at every instant; [__set_freezable] and [try_to_freeze()] every
    bit other than those two, [PF_NOFREEZE] and [PF_FREEZER_NOSIG]. *)
Theorem task_side_frame c0 ws m :
  Z.land PF_FROZEN m = 0 -> Z.land PF_FREEZING m = 0 ->
  (in_refrigerator (pc c0) = false ->
   Z.land PF_NOFREEZE m = 0 /\ Z.land PF_FREEZER_NOSIG m = 0) ->
  Z.land (flags (cur (exec ws c0))) m = Z.land (flags (cur c0)) m /\
  pid (cur (exec ws c0)) = pid (cur c0) /\
  sig_pending (cur (exec ws c0)) = sig_pending (cur c0).
Proof.
  intros H1 H2 H3.
  now destruct (framed_exec m H1 H2 c0 H3 ws) as (_ & ? & ? & ?).
Qed.

(** The frame at a kernel thread in the wait loop: it still has
    [PF_NOFREEZE] and [PF_FREEZER_NOSIG], whatever [freezing] says. *)
Lemma task_side_frame_witness :
  Z.land (flags (cur (exec (repeat nosig_world 12)
                        (refrigerator_call kthread_task nosig_world false))))
    (Z.lor PF_NOFREEZE PF_FREEZER_NOSIG)
  = Z.lor PF_NOFREEZE PF_FREEZER_NOSIG.
Proof.
  refine (proj1 (task_side_frame
                   (refrigerator_call kthread_task nosig_world false)
                   (repeat nosig_world 12)
                   (Z.lor PF_NOFREEZE PF_FREEZER_NOSIG) eq_refl eq_refl _)).
  intros H. discriminate H.
Defined.

(** ** The two flags and the program point *)

Lemma flags_by_point_env w c : flags_by_point c -> flags_by_point (env_move w c).
Proof.
  unfold flags_by_point, freezing_flag.
  now rewrite env_move_pc, env_move_frozen, env_move_flags.
Qed.

Lemma flags_by_point_step c : flags_by_point c -> flags_by_point (step c).
Proof.
  unfold flags_by_point, freezing_flag, frozen.
  by_statement c; intros (Hz & Hg); split; intros;
    try reflexivity; try congruence; try (apply Hz; discriminate).
Qed.

Lemma flags_by_point_entry c0 :
  entry_config c0 -> frozen (cur c0) = false -> freezing_flag c0 = false ->
  flags_by_point c0.
Proof.
  intros [(p & w & chk & ->) | [(p & w & ->) | (p & w & sig & ->)]] Hz Hg;
    split; auto.
Qed.

(** For a task that enters with [PF_FROZEN] and [PF_FREEZING] clear, at
    every instant of a call of [__refrigerator], [try_to_freeze()] or
    [__set_freezable] the two flags and [freezer_lock] are as the program
    point says: [PF_FROZEN] is set exactly from line 64 to line 92,
    [PF_FREEZING] exactly from line 77 to line 86, and the lock is held
    exactly inside the critical sections.  So a task in [schedule()] has both
    flags set and the lock free, and a task that has returned has both flags
    clear and the lock free. *)
Theorem flags_follow_program_point c0 ws :
  entry_config c0 -> frozen (cur c0) = false -> freezing_flag c0 = false ->
  let c := exec ws c0 in
  (pc c <> R_repeat -> frozen (cur c) = frozen_at (pc c)) /\
  freezing_flag c = freezing_at (pc c) /\
  lock_held c = locked_at (pc c) /\
  (pc c = R_schedule ->
   frozen (cur c) = true /\ freezing_flag c = true /\ lock_held c = false) /\
  (pc c = DONE ->
   frozen (cur c) = false /\ freezing_flag c = false /\ lock_held c = false).
Proof.
  intros He Hz Hg c.
  destruct (exec_invariant flags_by_point flags_by_point_env
              flags_by_point_step ws c0 (flags_by_point_entry c0 He Hz Hg))
    as ((H1 & H2) & _).
  assert (Hl : lock_ok c).
  { apply exec_lock_ok.
    destruct He as [(p & w & chk & ->) | [(p & w & ->) | (p & w & sig & ->)]];
      reflexivity. }
  fold c in H1, H2. unfold lock_ok in Hl.
  split; [exact H1 |]. split; [exact H2 |]. split; [exact Hl |].
  split; intros E.
  - rewrite H1, H2, Hl, E by (rewrite E; discriminate). auto.
  - rewrite H1, H2, Hl, E by (rewrite E; discriminate). auto.
Qed.

(** The flags of a task parked in [schedule()] during an episode. *)
Lemma flags_follow_program_point_witness :
  pc (exec (repeat pm_world 11) (try_to_freeze_call plain_task pm_world))
    = R_schedule /\
  frozen (cur (exec (repeat pm_world 11)
                 (try_to_freeze_call plain_task pm_world))) = true /\
  freezing_flag (exec (repeat pm_world 11)
                   (try_to_freeze_call plain_task pm_world)) = true /\
  lock_held (exec (repeat pm_world 11)
               (try_to_freeze_call plain_task pm_world)) = false.
Proof.
  split; [reflexivity |].
  assert (He : entry_config (try_to_freeze_call plain_task pm_world))
    by (right; left; now exists plain_task, pm_world).
  exact (proj1 (proj2 (proj2 (proj2
           (flags_follow_program_point
              (try_to_freeze_call plain_task pm_world) (repeat pm_world 11)
              He eq_refl eq_refl)))) eq_refl).
Defined.

(** ** The value returned *)

Lemma return_value_inv_env w h c :
  return_value_inv h c -> return_value_inv h (env_move w c).
Proof. unfold return_value_inv, env_move. now destruct (lock_held c). Qed.

Lemma return_value_inv_step h c :
  return_value_inv h c -> return_value_inv (c :: h) (step c).
Proof.
  unfold return_value_inv, slept. cbn [existsb].
  destruct c as [l p e lk sg ck wf sv r].
  destruct l; cbn; unfold try_to_freeze; cbn;
    repeat (match goal with
            | |- context [if ?b then _ else _] => destruct b
            end; cbn);
    generalize (existsb sets_was_frozen h) (existsb calls_schedule h);
    intros marks naps (Hw & He & Hs & Hm & Hd);
    try (specialize (Hs ltac:(discriminate)));
    try (specialize (Hm eq_refl));
    try (specialize (Hd eq_refl));
    try (specialize (He (or_introl eq_refl)));
    try (specialize (He (or_intror eq_refl)));
    subst;
    repeat split; intros;
    try match goal with H : _ \/ _ |- _ => destruct H end;
    try discriminate; try reflexivity; try congruence.
Qed.

Lemma return_value_inv_entry c0 : entry_config c0 -> return_value_inv [] c0.
Proof.
  intros [(p & w & chk & ->) | [(p & w & ->) | (p & w & sig & ->)]];
    repeat split; intros; try discriminate; reflexivity.
Qed.

Lemma return_value_run c0 ws :
  entry_config c0 -> return_value_inv (hist ws c0) (exec ws c0).
Proof.
  intros He. unfold exec, hist.
  apply (run_invariant return_value_inv).
  - intros h c w Hc. apply return_value_inv_step, return_value_inv_env, Hc.
  - now apply return_value_inv_entry.
Qed.

(** The value returned by [__refrigerator], [try_to_freeze()] and
    [__set_freezable] says whether the task gave up the processor: it is
    true exactly when [schedule()] was called in the course of the call.  A
    call that finds the freezing condition gone at its first test of the
    wait loop returns false although the task was, for a moment, frozen. *)
Theorem returns_whether_it_slept c0 ws :
  entry_config c0 -> pc (exec ws c0) = DONE ->
  ret (exec ws c0) = Some (slept (hist ws c0)).
Proof.
  intros He Hd.
  destruct (return_value_run c0 ws He) as (_ & _ & _ & _ & H). now apply H.
Qed.

(** A task thawed after two rounds of the wait loop, and a task whose
    episode ended before its first test: true and false. *)
Lemma returns_whether_it_slept_witness :
  ret (exec one_episode (refrigerator_call plain_task pm_world false))
    = Some true /\
  ret (exec (repeat thawed_world 20)
         (refrigerator_call plain_task pm_world false)) = Some false.
Proof.
  split.
  - refine (eq_trans
              (returns_whether_it_slept
                 (refrigerator_call plain_task pm_world false) one_episode
                 _ eq_refl) eq_refl).
    left. now exists plain_task, pm_world, false.
  - refine (eq_trans
              (returns_whether_it_slept
                 (refrigerator_call plain_task pm_world false)
                 (repeat thawed_world 20) _ eq_refl) eq_refl).
    left. now exists plain_task, pm_world, false.
Defined.

(** ** Staying in while freezing *)

Lemma same_target_freezing w p c :
  same_target p c -> freezing w (cur c) = freezing w p.
Proof.
  intros (Hp & Hn & Hs). unfold freezing.
  now rewrite (freezing_slow_path_ext w (cur c) p Hp Hn Hs).
Qed.

Lemma same_target_env p w c : same_target p c -> same_target p (env_move w c).
Proof. unfold same_target. now rewrite env_move_pid, env_move_flags. Qed.

Lemma kept_in_env p w c : kept_in p c -> kept_in p (env_move w c).
Proof.
  unfold kept_in. rewrite env_move_pc. intros (Hin & Hl & Ht & Hc & Hn).
  repeat split; try assumption.
  - now apply lock_ok_env.
  - now apply same_target_env.
  - now apply same_target_env.
  - now apply same_target_env.
Qed.

Lemma kept_in_statement p c :
  kept_in p c -> freezing (env c) p = true -> kept_in p (step c).
Proof.
  unfold kept_in, lock_ok. intros (Hin & Hl & Ht & Hc & Hn) Hw.
  pose proof (same_target_freezing (env c) p c Ht) as Hf. rewrite Hw in Hf.
  unfold same_target in *.
  destruct c as [l q e lk sg ck wf sv r]. cbn in Hin, Hl, Ht, Hc, Hn, Hf.
  subst lk.
  destruct l; try discriminate; try congruence; cbn;
    rewrite ?Hf; cbn;
    repeat (match goal with
            | |- context [if ?b then _ else _] => destruct b
            end; cbn);
    autorewrite with flagdb;
    repeat split; intros; try discriminate; try reflexivity;
    try assumption; try (now apply Ht).
Qed.

Lemma kept_in_step p w c :
  kept_in p c -> freezing w p = true -> kept_in p (step (env_move w c)).
Proof.
  intros Hc Hw. apply kept_in_statement.
  - now apply kept_in_env.
  - now rewrite env_move_env.
Qed.

Lemma kept_in_exec p ws : forall c,
  kept_in p c -> forallb (freezing_for p) ws = true -> kept_in p (exec ws c).
Proof.
  induction ws as [| w ws IH]; intros c Hc Hws.
  - exact Hc.
  - simpl in Hws. apply andb_true_iff in Hws as [Hw Hws].
    rewrite exec_cons. apply IH; [| exact Hws]. now apply kept_in_step.
Qed.

Lemma kept_in_refrigerator_call p w chk : kept_in p (refrigerator_call p w chk).
Proof. repeat split; intros; discriminate. Qed.

Lemma stays_frozen_run p ws : forall h c,
  kept_in p c -> forallb (freezing_for p) ws = true ->
  (existsb (fun d => frozen (cur d)) h = true -> frozen (cur c) = true) ->
  kept_in p (snd (run ws h c)) /\
  (existsb (fun d => frozen (cur d)) (fst (run ws h c)) = true ->
   frozen (cur (snd (run ws h c))) = true).
Proof.
  induction ws as [| w ws IH]; intros h c Hc Hws Hz.
  - now split.
  - simpl in Hws. apply andb_true_iff in Hws as [Hw Hws]. simpl.
    apply IH; [now apply kept_in_step | exact Hws |].
    simpl. rewrite env_move_frozen. intros Hex.
    assert (Hzc : frozen (cur (env_move w c)) = true).
    { rewrite env_move_frozen.
      destruct (frozen (cur c)) eqn:E; [reflexivity | now apply Hz]. }
    destruct (frozen (cur (step (env_move w c)))) eqn:E; [reflexivity |].
    pose proof (frozen_cleared_at _ Hzc E) as Hpc.
    destruct Hc as (_ & _ & _ & _ & Hn).
    rewrite env_move_pc in Hpc. contradiction.
Qed.

(** While the task is freezing a call of [__refrigerator] does not return:
    it never gets to line 92, so once [PF_FROZEN] is set it stays set.
    Neither a wake-up nor, with [check_kthr_stop] set,
    [kthread_should_stop()] gets the task past the exit re-check of
    line 90. *)
Theorem no_return_while_freezing p w chk ws :
  forallb (freezing_for p) ws = true ->
  pc (exec ws (refrigerator_call p w chk)) <> DONE /\
  pc (exec ws (refrigerator_call p w chk)) <> R_clr_frozen /\
  cleared_at (pc (exec ws (refrigerator_call p w chk))) = false /\
  (existsb (fun d => frozen (cur d)) (hist ws (refrigerator_call p w chk))
     = true ->
   frozen (cur (exec ws (refrigerator_call p w chk))) = true).
Proof.
  intros Hws. unfold exec, hist.
  destruct (stays_frozen_run p ws [] (refrigerator_call p w chk)
              (kept_in_refrigerator_call p w chk) Hws)
    as ((_ & _ & _ & Hc & Hn) & Hz); [discriminate |].
  repeat split; try assumption.
  intros E. rewrite E in Hc. discriminate.
Qed.

(** A kernel thread that is told to stop while the suspend path is
    freezing: after forty statements it has not returned and is frozen. *)
Lemma no_return_while_freezing_witness :
  pc (exec (repeat stop_world 40)
        (refrigerator_call plain_task pm_world true)) <> DONE /\
  frozen (cur (exec (repeat stop_world 40)
                 (refrigerator_call plain_task pm_world true))) = true.
Proof.
  pose proof (no_return_while_freezing plain_task pm_world true
                (repeat stop_world 40) eq_refl) as (H1 & _ & _ & H2).
  split; [exact H1 | apply H2; reflexivity].
Defined.

Lemma spinning_env p w c : spinning p c -> spinning p (env_move w c).
Proof.
  unfold spinning. rewrite env_move_pc.
  destruct (env_move_locals w c) as (_ & -> & -> & _).
  intros (Hk & H). split; [now apply kept_in_env | exact H].
Qed.

Lemma spinning_statement p c :
  spinning p c -> stopping_for p (env c) = true -> spinning p (step c).
Proof.
  unfold spinning, stopping_for. intros (Hk & Hck & Hwf & Hm & Hs) Hw.
  apply andb_true_iff in Hw as [Hfr Hstop].
  split; [now apply kept_in_statement |].
  destruct Hk as (Hin & Hl & Ht & _).
  pose proof (same_target_freezing (env c) p c Ht) as Hf. rewrite Hfr in Hf.
  destruct Ht as (Hp & _). unfold lock_ok in Hl.
  destruct c as [l q e lk sg ck wf sv r].
  cbn in Hin, Hl, Hck, Hwf, Hm, Hs, Hf, Hp, Hstop.
  subst lk ck wf.
  destruct l; try discriminate; try congruence; cbn;
    rewrite ?Hf, ?Hp, ?Hstop; cbn;
    repeat (match goal with
            | |- context [if ?b then _ else _] => destruct b
            end; cbn);
    repeat split; intros; try discriminate; reflexivity.
Qed.

Lemma spinning_step p w c :
  spinning p c -> stopping_for p w = true -> spinning p (step (env_move w c)).
Proof.
  intros Hc Hw. apply spinning_statement.
  - now apply spinning_env.
  - now rewrite env_move_env.
Qed.

Lemma spinning_run p ws : forall h c,
  spinning p c -> forallb (stopping_for p) ws = true -> slept h = false ->
  spinning p (snd (run ws h c)) /\ slept (fst (run ws h c)) = false.
Proof.
  induction ws as [| w ws IH]; intros h c Hc Hws Hh.
  - now split.
  - simpl in Hws. apply andb_true_iff in Hws as [Hw Hws]. simpl.
    apply IH; [now apply spinning_step | exact Hws |].
    unfold slept in *. simpl. rewrite Hh, orb_false_r.
    unfold calls_schedule. rewrite env_move_pc.
    destruct Hc as (_ & _ & _ & _ & Hs).
    destruct (pc c); try reflexivity. contradiction.
Qed.

(** A call [__refrigerator(true)] by a kernel thread that is freezing and
    told to stop neither sleeps nor returns: each test of line 78 leaves the
    wait loop, each re-check of line 90 jumps back to [repeat], and
    [schedule()] is never called.  The call is left only when the freezing
    condition goes. *)
Theorem stop_request_spins p w ws :
  forallb (stopping_for p) ws = true ->
  pc (exec ws (refrigerator_call p w true)) <> DONE /\
  slept (hist ws (refrigerator_call p w true)) = false /\
  was_frozen (exec ws (refrigerator_call p w true)) = false.
Proof.
  intros Hws. unfold exec, hist.
  assert (H0 : spinning p (refrigerator_call p w true)).
  { split; [apply kept_in_refrigerator_call |].
    repeat split; discriminate. }
  destruct (spinning_run p ws [] _ H0 Hws eq_refl)
    as (((_ & _ & _ & Hc & _) & _ & Hwf & _) & Hs).
  repeat split; try assumption.
  intros E. rewrite E in Hc. discriminate.
Qed.

Lemma stop_request_spins_witness :
  pc (exec (repeat stop_world 40)
        (refrigerator_call plain_task pm_world true)) <> DONE /\
  slept (hist (repeat stop_world 40)
           (refrigerator_call plain_task pm_world true)) = false.
Proof.
  pose proof (stop_request_spins plain_task pm_world (repeat stop_world 40)
                eq_refl) as (H1 & H2 & _).
  split; assumption.
Defined.

(** ** Calls that cannot be cancelled *)

Lemma same_conditions_freezing w w' p :
  same_conditions w w' -> freezing w p = freezing w' p.
Proof.
  intros (Hc & Hp & Hn & _ & Hg).
  unfold freezing, freezing_slow_path. now rewrite Hc, Hp, Hn, Hg.
Qed.

Lemma called_same_conditions w w' p :
  same_conditions w w' -> called w p = called w' p.
Proof.
  intros Hw. unfold called.
  destruct (Hw) as (_ & _ & _ & <- & _). revert p.
  induction (coordinator w) as [| k ks IH]; intros p; cbn [fold_left].
  - reflexivity.
  - rewrite IH. f_equal. destruct k; [| reflexivity].
    cbn [call_on]. unfold freeze_task.
    now rewrite (same_conditions_freezing w w' p Hw).
Qed.

Lemma alike_env w w' c d :
  alike c d -> same_conditions w w' -> alike (env_move w c) (env_move w' d).
Proof.
  unfold alike.
  intros (H1 & H2 & H3 & H4 & H5 & H6 & H7 & H8 & H9 & H10) Hw.
  assert (Hcur : cur (env_move w c) = cur (env_move w' d)).
  { unfold env_move. rewrite <- H3.
    destruct (lock_held c); cbn; [exact H2 |].
    rewrite <- H2. now apply called_same_conditions. }
  rewrite !env_move_pc, !env_move_env, !env_move_lock.
  destruct (env_move_locals w c) as (-> & -> & -> & -> & ->).
  destruct (env_move_locals w' d) as (-> & -> & -> & -> & ->).
  repeat (split; [assumption |]). exact Hw.
Qed.

Lemma alike_step c d : alike c d -> alike (step c) (step d).
Proof.
  unfold alike.
  intros (H1 & H2 & H3 & H4 & H5 & H6 & H7 & H8 & H9 & H10).
  pose proof (same_conditions_freezing _ _ (cur c) H10) as Hf.
  destruct c as [l p e lk sg ck wf sv r].
  destruct d as [l' p' e' lk' sg' ck' wf' sv' r'].
  cbn in H1, H2, H3, H4, H5, H6, H7, H8, H9, H10, Hf. subst.
  destruct l'; cbn; unfold try_to_freeze; cbn; rewrite ?Hf;
    repeat (match goal with
            | |- context [if ?b then _ else _] => destruct b
            end; cbn);
    (split; [| split; [| split; [| split; [| split; [| split;
       [| split; [| split; [| split]]]]]]]]);
    first [reflexivity | assumption].
Qed.

Lemma alike_exec ws ws' :
  Forall2 same_conditions ws ws' ->
  forall c d, alike c d -> alike (exec ws c) (exec ws' d).
Proof.
  induction 1 as [| w w' ws ws' Hw _ IH]; intros c d H.
  - exact H.
  - rewrite !exec_cons. apply IH, alike_step, alike_env; assumption.
Qed.

(** A call that does not check [kthread_should_stop()] (a call
    [__refrigerator(false)], a call of [try_to_freeze()] or of
    [__set_freezable]) goes the same way, leaves the same task and returns
    the same value whatever [kthread_should_stop()] says in the course of
    it: it cannot be cancelled. *)
Theorem unchecked_stop_is_ignored c0 ws ws' :
  check_kthr_stop c0 = false ->
  Forall2 same_conditions ws ws' ->
  pc (exec ws c0) = pc (exec ws' c0) /\
  cur (exec ws c0) = cur (exec ws' c0) /\
  ret (exec ws c0) = ret (exec ws' c0).
Proof.
  intros Hck Hws.
  assert (H0 : alike c0 c0) by (repeat split; auto).
  destruct (alike_exec ws ws' Hws c0 c0 H0)
    as (H1 & H2 & _ & _ & _ & _ & _ & _ & H9 & _).
  now repeat split.
Qed.

(** The episode that makes [__refrigerator(true)] spin is an ordinary one
    for [try_to_freeze()]: the task sleeps as if nobody had told it to
    stop. *)
Lemma unchecked_stop_is_ignored_witness :
  pc (exec (repeat stop_world 12) (try_to_freeze_call plain_task pm_world))
  = pc (exec (repeat pm_world 12) (try_to_freeze_call plain_task pm_world)) /\
  pc (exec (repeat pm_world 12) (try_to_freeze_call plain_task pm_world))
  = R_loop.
Proof.
  split; [| reflexivity].
  refine (proj1 (unchecked_stop_is_ignored
                   (try_to_freeze_call plain_task pm_world)
                   (repeat stop_world 12) (repeat pm_world 12) eq_refl _)).
  repeat constructor.
Defined.

(** ** The coordinator side *)

(** [freeze_task] and [__thaw_task] write no flag of the target: neither
    sets or clears [PF_FROZEN], which only the task itself does.  So a freeze
    request that was answered true is answered true again when it is
    repeated, and also after a thaw, as long as the task has not run and the
    conditions stand. *)
Theorem coordinator_writes_no_flag w p :
  flags (snd (fst (freeze_task w p))) = flags p /\
  flags (fst (__thaw_task p)) = flags p /\
  fst (fst (freeze_task w (snd (fst (freeze_task w p))))) =
    fst (fst (freeze_task w p)) /\
  fst (fst (freeze_task w (fst (__thaw_task p)))) =
    fst (fst (freeze_task w p)).
Proof.
  destruct (freeze_task_flags w p) as (F1 & F2 & _).
  destruct (thaw_task_flags p) as (T1 & T2 & _).
  assert (Hres : forall q, flags q = flags p -> pid q = pid p ->
                 fst (fst (freeze_task w q)) = fst (fst (freeze_task w p))).
  { intros q Hf Hp. unfold freeze_task, fake_signal_wake_up.
    assert (E1 : freezing w q = freezing w p).
    { unfold freezing, freezing_slow_path. now rewrite Hf, Hp. }
    assert (E2 : frozen q = frozen p) by (unfold frozen; now rewrite Hf).
    assert (E3 : should_send_signal q = should_send_signal p)
      by (unfold should_send_signal; now rewrite Hf).
    rewrite E1, E2, E3.
    destruct (negb (freezing w p) || frozen p); [reflexivity |].
    now destruct (should_send_signal p). }
  repeat split; auto.
Qed.

(** ** The coordinator and a task inside the refrigerator *)

(** A task between line 64 and line 92 of [__refrigerator] is left alone by
    a freeze request, whatever the conditions are: [freeze_task] answers
    false and makes no call.  [__thaw_task] gives it the plain wake, not the
    signal reconciliation. *)
Theorem frozen_task_is_left_alone c0 ws w' :
  entry_config c0 -> frozen_at (pc (exec ws c0)) = true ->
  freeze_task w' (cur (exec ws c0)) = (false, cur (exec ws c0), []) /\
  __thaw_task (cur (exec ws c0)) =
    (do_wake_up_process (cur (exec ws c0)), [Call_wake_up_process]).
Proof.
  intros He Hat.
  destruct (exec_invariant exit_inv exit_inv_env exit_inv_step ws c0
              (exit_inv_entry c0 He)) as ((_ & Hz) & _).
  specialize (Hz Hat).
  unfold freeze_task, __thaw_task. rewrite Hz.
  now rewrite orb_true_r.
Qed.

Lemma frozen_task_is_left_alone_witness :
  fst (fst (freeze_task all_conditions_world
              (cur (exec (repeat pm_world 10)
                      (refrigerator_call plain_task pm_world false)))))
  = false.
Proof.
  refine (f_equal (fun x => fst (fst x))
            (proj1 (frozen_task_is_left_alone
                      (refrigerator_call plain_task pm_world false)
                      (repeat pm_world 10) all_conditions_world _ eq_refl))).
  left. now exists plain_task, pm_world, false.
Defined.

(** ** Returning *)

(** Every call returns once the episode is over: whatever went before, when
    no freezing condition applies to the task for sixteen statements in a
    row, [__refrigerator], [try_to_freeze()] and [__set_freezable] have
    returned a value, with [freezer_lock] released. *)
Theorem every_call_returns_after_thaw c0 ws ws' :
  entry_config c0 ->
  forallb (idle (pid (cur c0))) ws' = true -> (16 <= length ws')%nat ->
  pc (exec (ws ++ ws') c0) = DONE /\
  lock_held (exec (ws ++ ws') c0) = false /\
  ret (exec (ws ++ ws') c0) <> None.
Proof.
  intros He Hi Hn.
  assert (Hl : lock_ok c0).
  { destruct He as [(p & w & chk & ->) | [(p & w & ->) | (p & w & sig & ->)]];
      reflexivity. }
  assert (Hd : pc (exec (ws ++ ws') c0) = DONE)
    by now apply episode_over_returns.
  split; [exact Hd |]. split.
  - pose proof (exec_lock_ok (ws ++ ws') c0 Hl) as H.
    unfold lock_ok in H. now rewrite H, Hd.
  - destruct (return_value_run c0 (ws ++ ws') He) as (_ & _ & _ & _ & H).
    rewrite (H Hd). discriminate.
Qed.

(** A kernel thread that opts in during a no-signal episode, sleeps, and is
    thawed. *)
Lemma every_call_returns_after_thaw_witness :
  pc (exec (repeat nosig_world 30 ++ repeat thawed_world 16)
        (set_freezable_call kthread_task nosig_world true)) = DONE.
Proof.
  refine (proj1 (every_call_returns_after_thaw
                   (set_freezable_call kthread_task nosig_world true)
                   (repeat nosig_world 30) (repeat thawed_world 16)
                   _ eq_refl _)).
  - right; right. now exists kthread_task, nosig_world, true.
  - vm_compute. lia.
Defined.

(** ** Opting in *)

Lemma opted_in_env sig p w c : opted_in sig p c -> opted_in sig p (env_move w c).
Proof.
  unfold opted_in, nofreeze_flag.
  rewrite env_move_pc, env_move_pid, env_move_flags.
  now destruct (env_move_locals w c) as (-> & _).
Qed.

Lemma opted_in_step sig p c : opted_in sig p c -> opted_in sig p (step c).
Proof.
  unfold opted_in, nofreeze_flag.
  destruct c as [l q e lk sg ck wf sv r].
  destruct l; cbn; unfold try_to_freeze; cbn;
    repeat (match goal with
            | |- context [if ?b then _ else _] => destruct b eqn:?
            end; cbn);
    autorewrite with flagdb;
    intros (Hp & Hs & Hn & Hg);
    try (destruct (Hs (or_introl eq_refl)) as [Hs1 Hs2]);
    try (destruct (Hs (or_intror (or_introl eq_refl))) as [Hs1 Hs2]);
    try (destruct (Hs (or_intror (or_intror eq_refl))) as [Hs1 Hs2]);
    subst;
    (split; [assumption |]);
    (split; [intros [E | [E | E]]; try discriminate; auto |]);
    (split; [intros; try congruence; try reflexivity;
             try (apply Hn; discriminate) |]);
    intros; try congruence; try reflexivity;
    try (apply Hg; discriminate).
Qed.

(** [__set_freezable] makes the task freezable: once it has returned, the
    task has [PF_NOFREEZE] clear, and [PF_FREEZER_NOSIG] clear when
    [with_signal] was set and as before when not; so it is freezing, and a
    freeze request is answered true, exactly when the counter is up and
    either [pm_nosig_freezing] is true, or the group predicate holds, or
    [pm_freezing] is true and the task takes signals. *)
Theorem set_freezable_makes_freezable p w sig ws w' :
  frozen p = false ->
  pc (exec ws (set_freezable_call p w sig)) = DONE ->
  freezing w' (cur (exec ws (set_freezable_call p w sig))) =
    negb (system_freezing_cnt w' =? 0) &&
    (pm_nosig_freezing w' || cgroup_freezing w' (pid p) ||
     pm_freezing w' && (sig || negb (test_flag (flags p) PF_FREEZER_NOSIG)))
  /\
  fst (fst (freeze_task w' (cur (exec ws (set_freezable_call p w sig))))) =
    freezing w' (cur (exec ws (set_freezable_call p w sig))).
Proof.
  intros Hz Hd.
  set (c := exec ws (set_freezable_call p w sig)) in *.
  assert (H0 : opted_in sig p (set_freezable_call p w sig)).
  { repeat split; intros; try congruence; cbn in *; congruence. }
  destruct (exec_invariant (opted_in sig p) (opted_in_env sig p)
              (opted_in_step sig p) ws _ H0) as ((Hp & _ & Hn & Hg) & _).
  fold c in Hp, Hn, Hg. unfold nofreeze_flag in Hn.
  assert (Hnf : test_flag (flags (cur c)) PF_NOFREEZE = false)
    by (apply Hn; rewrite Hd; discriminate).
  assert (Hns : test_flag (flags (cur c)) PF_FREEZER_NOSIG =
                if sig then false else test_flag (flags p) PF_FREEZER_NOSIG)
    by (apply Hg; rewrite Hd; discriminate).
  assert (H1 : checked_entry (set_freezable_call p w sig)).
  { repeat split; intros; try discriminate; exact Hz. }
  destruct (exec_invariant checked_entry checked_entry_env checked_entry_step
              ws _ H1) as ((_ & _ & Hcl) & _).
  fold c in Hcl.
  assert (Hfz : frozen (cur c) = false) by (apply Hcl; now rewrite Hd).
  split.
  - unfold freezing, freezing_slow_path. rewrite Hnf, Hns, Hp.
    destruct (system_freezing_cnt w' =? 0), (pm_nosig_freezing w'),
      (cgroup_freezing w' (pid p)), (pm_freezing w'), sig,
      (test_flag (flags p) PF_FREEZER_NOSIG); reflexivity.
  - unfold freeze_task, fake_signal_wake_up. rewrite Hfz, orb_false_r.
    destruct (freezing w' (cur c)); cbn; [| reflexivity].
    now destruct (should_send_signal (cur c)).
Qed.

(** A kernel thread after it has opted in with signals: the suspend path can
    now freeze it. *)
Lemma set_freezable_makes_freezable_witness :
  freezing pm_world kthread_task = false /\
  fst (fst (freeze_task pm_world
              (cur (exec (repeat thawed_world 5)
                      (set_freezable_call kthread_task thawed_world true)))))
  = true.
Proof.
  split; [reflexivity |].
  destruct (set_freezable_makes_freezable kthread_task thawed_world true
              (repeat thawed_world 5) pm_world eq_refl eq_refl) as (H1 & H2).
  rewrite H2. exact H1.
Defined.
